(** * The resizable sidebar of [src/app/(main)/_components/navigation.tsx]

    A shallow embedding of the [Navigation] component: its hook state, the two
    DOM elements it writes inline styles to, the document's listener list and
    the timer queue it schedules on.  Handlers are state transformers that
    follow the source line by line; the host page (listener list, timer
    queue, clock) is part of the state so that the handlers' effects on it
    can be observed. *)

From Stdlib Require Import ZArith String DecimalString DecimalZ.
From stdpp Require Import gmap strings list fin_maps.

Local Open Scope string_scope.
Local Open Scope Z_scope.

(** ** CSS values

    Inline style values are the strings the source writes.  A JavaScript
    number that holds an integer prints, in a template literal, as its
    decimal digits with a leading minus sign when negative. *)
Module Css.

(** [`${n}`] for an integral number [n]. *)
Definition num (n : Z) : string := NilZero.string_of_int (Z.to_int n).

(** [`${n}px`] *)
Definition px (n : Z) : string := num n ++ "px".

(** [`calc(100% - ${n}px)`] *)
Definition calc_rest (n : Z) : string := "calc(100% - " ++ num n ++ "px)".

(** Reading a value back: [strip_px] removes a trailing [px] unit. *)
Fixpoint strip_px (v : string) : option string :=
  if String.eqb v "px" then Some ""
  else match v with
       | EmptyString => None
       | String c v' => option_map (String c) (strip_px v')
       end.

(** The pixel length a value denotes, when it is an absolute length: the
    unitless ["0"] or an integer followed by [px].  Percentages and
    [calc] expressions denote no fixed number of pixels. *)
Definition pixels (v : string) : option Z :=
  if String.eqb v "0" then Some 0
  else match strip_px v with
       | Some digits => option_map Z.of_int (NilZero.int_of_string digits)
       | None => None
       end.

(** Decidable range test on the pixel reading of a value. *)
Definition within (lo hi : Z) (v : string) : bool :=
  match pixels v with
  | Some n => (lo <=? n) && (n <=? hi)
  | None => false
  end.

(** Reading [calc(100% - <length>)] back: [strip_prefix p v] removes the
    leading [p] and [strip_close] the closing parenthesis. *)
Fixpoint strip_prefix (p v : string) : option string :=
  match p, v with
  | EmptyString, _ => Some v
  | String a p', String b v' =>
      if Ascii.eqb a b then strip_prefix p' v' else None
  | String _ _, EmptyString => None
  end.

Fixpoint strip_close (v : string) : option string :=
  if String.eqb v ")" then Some ""
  else match v with
       | EmptyString => None
       | String c v' => option_map (String c) (strip_close v')
       end.

(** The pixel length that a value of the form [calc(100% - <length>)]
    subtracts from the full width; other values subtract none. *)
Definition subtracted (v : string) : option Z :=
  match strip_prefix "calc(100% - " v with
  | Some rest =>
      match strip_close rest with
      | Some len => pixels len
      | None => None
      end
  | None => None
  end.

End Css.

(** ** DOM elements, listeners, timers *)

(** An element is observed through its inline style declaration only:
    [el.style.width = v] and [el.style.setProperty(k, v)] both declare [v]
    for the property.  The declaration keeps the value as the source wrote
    it (a browser may serialise it differently when read back). *)
Record element := Element { style : gmap string string }.

Definition setProperty (k v : string) (el : element) : element :=
  {| style := <[k := v]> (style el) |}.

(** [event.clientX] is the only field of the mouse event that is read; it is
    taken to be a whole number of CSS pixels. *)
Record MouseEvent := { clientX : Z }.

(** Every render of the component creates fresh closures, so a listener is
    identified by the function it wraps and the render that created it. *)
Inductive handler :=
| HandleMouseMove (r : nat)
| HandleMouseUp (r : nat).

(** The closure [() => setIsResetting(b)] handed to [setTimeout]. *)
Inductive callback :=
| SetIsResetting (b : bool).

(** Calls that leave the component: hooks and functions of the imported
    packages, and the host functions used by the handlers.  [UseMutation]
    and [Toast] stand for the imports of lines 15 and 16. *)
Inductive outcall :=
| UseRouter
| UseParams
| UsePathname
| UseMediaQuery (query : string)
| UseMutation (fn : string)
| Toast (msg : string)
| PreventDefault
| StopPropagation
| AddEventListener (type : string) (h : handler)
| RemoveEventListener (type : string) (h : handler)
| SetTimeout (cb : callback) (ms : nat).

#[global] Instance handler_eq_dec : EqDecision handler.
Proof. solve_decision. Defined.

#[global] Instance callback_eq_dec : EqDecision callback.
Proof. solve_decision. Defined.

#[global] Instance outcall_eq_dec : EqDecision outcall.
Proof. solve_decision. Defined.

(** ** State *)

Record state := State {
  (* values the hooks returned to the latest render *)
  isMobile : bool;                       (* useMediaQuery('(max-width: 768px)') *)
  pathname : string;                     (* usePathname() *)
  render_id : nat;                       (* which render the live closures belong to *)
  (* refs and state of the component *)
  isResizingRef : bool;
  sidebarRef : option element;
  navbarRef : option element;
  isResetting : bool;
  isCollapsed : bool;
  (* host page *)
  listeners : list (string * handler);   (* listener list of [document] *)
  timers : list (nat * callback);        (* pending timeouts: due time, callback *)
  now : nat;                             (* clock, in milliseconds *)
  calls : list outcall                   (* log of outward calls, oldest first *)
}.

Definition set_hooks (m : bool) (p : string) (s : state) : state :=
  {| isMobile := m; pathname := p; render_id := S (render_id s);
     isResizingRef := isResizingRef s; sidebarRef := sidebarRef s;
     navbarRef := navbarRef s; isResetting := isResetting s;
     isCollapsed := isCollapsed s; listeners := listeners s;
     timers := timers s; now := now s; calls := calls s |}.

Definition set_isResizingRef (b : bool) (s : state) : state :=
  {| isMobile := isMobile s; pathname := pathname s; render_id := render_id s;
     isResizingRef := b; sidebarRef := sidebarRef s;
     navbarRef := navbarRef s; isResetting := isResetting s;
     isCollapsed := isCollapsed s; listeners := listeners s;
     timers := timers s; now := now s; calls := calls s |}.

Definition set_sidebarRef (el : option element) (s : state) : state :=
  {| isMobile := isMobile s; pathname := pathname s; render_id := render_id s;
     isResizingRef := isResizingRef s; sidebarRef := el;
     navbarRef := navbarRef s; isResetting := isResetting s;
     isCollapsed := isCollapsed s; listeners := listeners s;
     timers := timers s; now := now s; calls := calls s |}.

Definition set_navbarRef (el : option element) (s : state) : state :=
  {| isMobile := isMobile s; pathname := pathname s; render_id := render_id s;
     isResizingRef := isResizingRef s; sidebarRef := sidebarRef s;
     navbarRef := el; isResetting := isResetting s;
     isCollapsed := isCollapsed s; listeners := listeners s;
     timers := timers s; now := now s; calls := calls s |}.

Definition setIsResetting (b : bool) (s : state) : state :=
  {| isMobile := isMobile s; pathname := pathname s; render_id := render_id s;
     isResizingRef := isResizingRef s; sidebarRef := sidebarRef s;
     navbarRef := navbarRef s; isResetting := b;
     isCollapsed := isCollapsed s; listeners := listeners s;
     timers := timers s; now := now s; calls := calls s |}.

Definition setIsCollapsed (b : bool) (s : state) : state :=
  {| isMobile := isMobile s; pathname := pathname s; render_id := render_id s;
     isResizingRef := isResizingRef s; sidebarRef := sidebarRef s;
     navbarRef := navbarRef s; isResetting := isResetting s;
     isCollapsed := b; listeners := listeners s;
     timers := timers s; now := now s; calls := calls s |}.

Definition set_listeners (l : list (string * handler)) (s : state) : state :=
  {| isMobile := isMobile s; pathname := pathname s; render_id := render_id s;
     isResizingRef := isResizingRef s; sidebarRef := sidebarRef s;
     navbarRef := navbarRef s; isResetting := isResetting s;
     isCollapsed := isCollapsed s; listeners := l;
     timers := timers s; now := now s; calls := calls s |}.

Definition set_timers (t : list (nat * callback)) (s : state) : state :=
  {| isMobile := isMobile s; pathname := pathname s; render_id := render_id s;
     isResizingRef := isResizingRef s; sidebarRef := sidebarRef s;
     navbarRef := navbarRef s; isResetting := isResetting s;
     isCollapsed := isCollapsed s; listeners := listeners s;
     timers := t; now := now s; calls := calls s |}.

Definition set_now (t : nat) (s : state) : state :=
  {| isMobile := isMobile s; pathname := pathname s; render_id := render_id s;
     isResizingRef := isResizingRef s; sidebarRef := sidebarRef s;
     navbarRef := navbarRef s; isResetting := isResetting s;
     isCollapsed := isCollapsed s; listeners := listeners s;
     timers := timers s; now := t; calls := calls s |}.

Definition log (c : list outcall) (s : state) : state :=
  {| isMobile := isMobile s; pathname := pathname s; render_id := render_id s;
     isResizingRef := isResizingRef s; sidebarRef := sidebarRef s;
     navbarRef := navbarRef s; isResetting := isResetting s;
     isCollapsed := isCollapsed s; listeners := listeners s;
     timers := timers s; now := now s; calls := calls s ++ c |}.

(** Sequencing of state transformers, in program order. *)
Definition andThen (f g : state → state) : state → state := λ s, g (f s).
Declare Scope prog_scope.
Delimit Scope prog_scope with prog.
Notation "f ;; g" := (andThen f g)
  (at level 100, g at level 200, right associativity) : prog_scope.
Local Open Scope prog_scope.

Definition skip : state → state := λ s, s.

(** ** Host functions *)

(** [document.addEventListener(type, h)]: a listener already registered for
    the same type is not added a second time. *)
Definition addEventListener (type : string) (h : handler) : state → state :=
  log [AddEventListener type h] ;;
  λ s, if decide ((type, h) ∈ listeners s) then s
       else set_listeners (listeners s ++ [(type, h)]) s.

(** [document.removeEventListener(type, h)] *)
Definition removeEventListener (type : string) (h : handler) : state → state :=
  log [RemoveEventListener type h] ;;
  λ s, set_listeners (filter (λ l, l ≠ (type, h)) (listeners s)) s.

(** [setTimeout(cb, ms)] *)
Definition setTimeout (cb : callback) (ms : nat) : state → state :=
  log [SetTimeout cb ms] ;;
  λ s, set_timers (timers s ++ [(now s + ms, cb)]%nat) s.

Definition run_callback (cb : callback) : state → state :=
  match cb with
  | SetIsResetting b => setIsResetting b
  end.

Definition on_sidebar (f : element → element) : state → state :=
  λ s, set_sidebarRef (f <$> sidebarRef s) s.

Definition on_navbar (f : element → element) : state → state :=
  λ s, set_navbarRef (f <$> navbarRef s) s.

(** [sidebarRef.current && navbarRef.current] *)
Definition both_present (s : state) : bool :=
  match sidebarRef s, navbarRef s with
  | Some _, Some _ => true
  | _, _ => false
  end.

(** ** The component *)

(** Lines 61-70. *)
Definition handleMouseDown : state → state :=
  log [PreventDefault] ;;
  log [StopPropagation] ;;
  set_isResizingRef true ;;
  (λ s, addEventListener "mousemove" (HandleMouseMove (render_id s)) s) ;;
  (λ s, addEventListener "mouseup" (HandleMouseUp (render_id s)) s).

(** Lines 86-87: the two assignments that bound [newWidth]. *)
Definition clamp (clientX : Z) : Z :=
  let newWidth := clientX in
  let newWidth := if newWidth <? 240 then 240 else newWidth in
  let newWidth := if 480 <? newWidth then 480 else newWidth in
  newWidth.

(** Lines 82-97.  The closure reads the refs only, so it behaves the same
    whichever render created it. *)
Definition handleMouseMove (event : MouseEvent) : state → state :=
  λ s,
  if negb (isResizingRef s) then s
  else
    let newWidth := clamp (clientX event) in
    if both_present s then
      (on_sidebar (setProperty "width" (Css.px newWidth)) ;;
       on_navbar (setProperty "left" (Css.px newWidth)) ;;
       on_navbar (setProperty "width" (Css.calc_rest newWidth))) s
    else s.

(** Lines 99-103; [r] is the render whose closures this one belongs to. *)
Definition handleMouseUp (r : nat) : state → state :=
  set_isResizingRef false ;;
  removeEventListener "mousemove" (HandleMouseMove r) ;;
  removeEventListener "mouseup" (HandleMouseUp r).

(** Lines 109-122.  [isMobile] is the value seen by the render that created
    the closure; click handlers and effects always belong to the latest
    render, so it is the current one. *)
Definition resetWidth : state → state :=
  λ s,
  if both_present s then
    (setIsCollapsed false ;;
     setIsResetting true ;;
     on_sidebar (setProperty "width" (if isMobile s then "100%" else "240px")) ;;
     on_navbar (setProperty "width"
                  (if isMobile s then "0" else "calc(100% - 240px)")) ;;
     on_navbar (setProperty "left" (if isMobile s then "100%" else "240px")) ;;
     setTimeout (SetIsResetting false) 300) s
  else s.

(** Lines 128-138. *)
Definition collapse : state → state :=
  λ s,
  if both_present s then
    (setIsCollapsed true ;;
     setIsResetting true ;;
     on_sidebar (setProperty "width" "0") ;;
     on_navbar (setProperty "width" "100%") ;;
     on_navbar (setProperty "left" "0") ;;
     setTimeout (SetIsResetting false) 300) s
  else s.

(** Lines 39-45: the effect with dependency list [[isMobile]]. *)
Definition effect_isMobile : state → state :=
  λ s, if isMobile s then collapse s else resetWidth s.

(** Lines 47-51: the effect with dependency list [[pathname, isMobile]]. *)
Definition effect_pathname : state → state :=
  λ s, if isMobile s then collapse s else s.

(** Lines 28-31: the hooks of the imported packages that the body of
    [Navigation] calls on every render, in order. *)
Definition Navigation_hooks : list outcall :=
  [UseRouter; UseParams; UsePathname; UseMediaQuery "(max-width: 768px)"].

(** The state of the first render, before it is committed: both refs are
    [null], [isCollapsed] starts as [isMobile] (lines 33-37). *)
Definition initial (m : bool) (p : string) : state :=
  {| isMobile := m; pathname := p; render_id := 0;
     isResizingRef := false; sidebarRef := None; navbarRef := None;
     isResetting := false; isCollapsed := m;
     listeners := []; timers := []; now := 0%nat;
     calls := Navigation_hooks |}.

(** Committing the first render attaches the [aside] and the [div], neither
    with an inline style, and then runs both effects. *)
Definition mount (m : bool) (p : string) : state :=
  (set_sidebarRef (Some (Element ∅)) ;;
   set_navbarRef (Some (Element ∅)) ;;
   effect_isMobile ;;
   effect_pathname) (initial m p).

(** A later render in which the hooks return [m] and [p]: the closures are
    created anew, and an effect runs when one of its dependencies differs
    from the previous render's. *)
Definition rerender (m : bool) (p : string) : state → state :=
  λ s,
  let mobile_changed := negb (bool_decide (m = isMobile s)) in
  let path_changed := negb (bool_decide (p = pathname s)) in
  (log Navigation_hooks ;;
   set_hooks m p ;;
   (if mobile_changed then effect_isMobile else skip) ;;
   (if path_changed || mobile_changed then effect_pathname else skip)) s.

(** ** Events of the host page *)

(** Dispatch of a mouse event at [document]: the listeners registered for
    the type when the dispatch starts are called in order, except those
    removed in the meantime. *)
Definition invoke (h : handler) (event : MouseEvent) : state → state :=
  match h with
  | HandleMouseMove _ => handleMouseMove event
  | HandleMouseUp r => handleMouseUp r
  end.

Definition dispatch_one (type : string) (event : MouseEvent)
    (s : state) (l : string * handler) : state :=
  if bool_decide (l.1 = type) && bool_decide (l ∈ listeners s)
  then invoke l.2 event s else s.

Definition dispatch (type : string) (event : MouseEvent) : state → state :=
  λ s, foldl (dispatch_one type event) s (listeners s).

(** The clock advances by [dt] milliseconds and the timeouts that are due
    run, oldest first. *)
Definition tick (dt : nat) : state → state :=
  λ s,
  let t := (now s + dt)%nat in
  let due := filter (λ x, x.1 ≤ t)%nat (timers s) in
  let rest := filter (λ x, ¬ (x.1 ≤ t)%nat) (timers s) in
  foldl (λ acc x, run_callback x.2 acc) (set_now t (set_timers rest s)) due.

Inductive event :=
| MouseDown                         (* mousedown on the drag handle, line 167 *)
| MouseMove (e : MouseEvent)        (* mousemove reaching [document] *)
| MouseUp (e : MouseEvent)          (* mouseup reaching [document] *)
| ClickCollapse                     (* click on the chevron, line 151 *)
| ClickResetWidth                   (* click on the handle or the menu icon, lines 168, 184 *)
| Render (m : bool) (p : string)    (* a re-render, with what the hooks return *)
| Tick (dt : nat).                  (* time passing *)

Definition step (ev : event) : state → state :=
  match ev with
  | MouseDown => handleMouseDown
  | MouseMove e => dispatch "mousemove" e
  | MouseUp e => dispatch "mouseup" e
  | ClickCollapse => collapse
  | ClickResetWidth => resetWidth
  | Render m p => rerender m p
  | Tick dt => tick dt
  end.

Definition run (evs : list event) (s : state) : state :=
  foldl (λ acc ev, step ev acc) s evs.

(** The states of a mounted component, from the commit of its first render
    on. *)
Inductive reachable : state → Prop :=
| reach_mount m p : reachable (mount m p)
| reach_step ev s : reachable s → reachable (step ev s).

(** Observations. *)
Definition sidebar_width (s : state) : option string :=
  sidebarRef s ≫= λ el, style el !! "width".

Definition navbar_left (s : state) : option string :=
  navbarRef s ≫= λ el, style el !! "left".

Definition navbar_width (s : state) : option string :=
  navbarRef s ≫= λ el, style el !! "width".

(** ** Predicates and sample states *)

(** The state a render leaves before its effects run. *)
Definition rendered (m : bool) (p : string) (s : state) : state :=
  set_hooks m p (log Navigation_hooks s).

(** Concrete states used to exercise the statements below. *)
Definition desktop : state := mount false "/documents".
Definition phone : state := mount true "/documents".
Definition dragging : state := handleMouseDown desktop.

(** A mounted page whose navbar ref has been cleared. *)
Definition navbar_detached : state := set_navbarRef None desktop.

(** The two listeners a render [r] can register. *)
Definition move_listener (r : nat) : string * handler :=
  ("mousemove", HandleMouseMove r).
Definition up_listener (r : nat) : string * handler :=
  ("mouseup", HandleMouseUp r).

(** Every registered listener is one of the component's, the two come in
    pairs of one render, and there are some exactly while the flag is set. *)
Definition own_listener (l : string * handler) : Prop :=
  ∃ r, l = move_listener r ∨ l = up_listener r.

Definition paired (ls : list (string * handler)) : Prop :=
  ∀ r, move_listener r ∈ ls ↔ up_listener r ∈ ls.

Definition listeners_ok (s : state) : Prop :=
  Forall own_listener (listeners s) ∧ paired (listeners s).

Definition drag_inv (s : state) : Prop :=
  listeners_ok s ∧ (isResizingRef s = true ↔ listeners s ≠ []).

(** The sidebar's inline width is a pixel value within [240, 480], except
    that it is 0 while collapsed and 100% while expanded on a phone. *)
Definition width_shape (s : state) (v : string) : Prop :=
  (v = "0" ∧ isCollapsed s = true)
  ∨ (v = "100%" ∧ isMobile s = true)
  ∨ Css.within 240 480 v = true.

Definition width_inv (s : state) : Prop :=
  both_present s = true ∧ ∃ v, sidebar_width s = Some v ∧ width_shape s v.

(** The claim of a fixed range [lo, hi] for the width, as a predicate. *)
Definition width_within (lo hi : Z) (s : state) : Prop :=
  ∃ v, sidebar_width s = Some v ∧ Css.within lo hi v = true.

(** What a handled mouse move leaves in the three style declarations. *)
Definition resized_to (w : Z) (s : state) : Prop :=
  sidebar_width s = Some (Css.px w)
  ∧ navbar_left s = Some (Css.px w)
  ∧ navbar_width s = Some (Css.calc_rest w).

(** What holds of the state throughout the dispatch of a mouse move that
    started in [s0] during a drag. *)
Definition during (s0 s : state) : Prop :=
  listeners s = listeners s0
  ∧ isResizingRef s = true
  ∧ both_present s = true.

(** The calls the source makes: the four hooks of a render, the two calls
    on the mouse-down event, registration and removal of a drag listener
    under its own event type, and the 300 ms timeout that clears
    [isResetting]. *)
Definition expected_call (c : outcall) : bool :=
  match c with
  | UseRouter | UseParams | UsePathname => true
  | UseMediaQuery query => bool_decide (query = "(max-width: 768px)")
  | UseMutation _ | Toast _ => false
  | PreventDefault | StopPropagation => true
  | AddEventListener type (HandleMouseMove _)
  | RemoveEventListener type (HandleMouseMove _) =>
      bool_decide (type = "mousemove")
  | AddEventListener type (HandleMouseUp _)
  | RemoveEventListener type (HandleMouseUp _) =>
      bool_decide (type = "mouseup")
  | SetTimeout cb ms => bool_decide (cb = SetIsResetting false ∧ ms = 300%nat)
  end.

(** [s'] has made the calls of [s] and then only expected ones. *)
Definition calls_extend (s s' : state) : Prop :=
  ∃ d, calls s' = (calls s ++ d)%list ∧ Forall (λ c, expected_call c = true) d.

(** ** Further predicates on the layout, the view and the timers *)

(** The three inline styles read back as numbers: the sidebar is [w]
    pixels wide, the navbar starts at [w] pixels and its width is 100%
    less [w] pixels. *)
Definition reads_as (w : Z) (s : state) : Prop :=
  sidebar_width s ≫= Css.pixels = Some w
  ∧ navbar_left s ≫= Css.pixels = Some w
  ∧ navbar_width s ≫= Css.subtracted = Some w.

(** The navbar takes what the sidebar leaves: next to a sidebar of width 0
    it starts at 0 and is 100% wide, next to one of 100% it starts at 100%
    and has width 0, next to one of [w] pixels it starts at [w] and is
    [calc(100% - w px)] wide. *)
Definition navbar_complements (s : state) : Prop :=
  (sidebar_width s = Some "0"
   ∧ navbar_left s = Some "0" ∧ navbar_width s = Some "100%")
  ∨ (sidebar_width s = Some "100%"
     ∧ navbar_left s = Some "100%" ∧ navbar_width s = Some "0")
  ∨ (∃ w, 240 ≤ w ≤ 480 ∧ resized_to w s ∧ reads_as w s).

(** The inline properties the component has declared on its two elements. *)
Definition declared (s : state) : option (gset string * gset string) :=
  match sidebarRef s, navbarRef s with
  | Some sb, Some nb => Some (dom (style sb), dom (style nb))
  | _, _ => None
  end.

(** Both elements are present and carry at most, or exactly, the
    declarations the component makes. *)
Definition declared_at_most (s : state) : Prop :=
  ∃ sb nb, sidebarRef s = Some sb ∧ navbarRef s = Some nb
           ∧ dom (style sb) ⊆ ({["width"]} : gset string)
           ∧ dom (style nb) ⊆ ({["left"; "width"]} : gset string).

Definition declared_exactly (s : state) : Prop :=
  declared s = Some ({["width"]}, {["left"; "width"]}).

(** Line 182: [{isCollapsed && <MenuIcon onClick={resetWidth} ... />}]. *)
Definition menuIcon_rendered (s : state) : bool := isCollapsed s.

(** The three inline styles together. *)
Definition layout (s : state) : option string * option string * option string :=
  (sidebar_width s, navbar_left s, navbar_width s).

(** Mouse events, as opposed to clicks, renders and ticks. *)
Definition mouse_event (ev : event) : bool :=
  match ev with
  | MouseDown | MouseMove _ | MouseUp _ => true
  | _ => false
  end.

(** Every pending timeout clears [isResetting] and falls due within the
    next 300 ms; while the flag is set, one is pending. *)
Definition pending_ok (s : state) (x : nat * callback) : Prop :=
  x.2 = SetIsResetting false ∧ (now s < x.1 ≤ now s + 300)%nat.

Definition timers_inv (s : state) : Prop :=
  Forall (pending_ok s) (timers s)
  ∧ (isResetting s = true → timers s ≠ []).

(** * Properties *)

#[local] Set Warnings "-clear-no-such-hyp".

(** The operations are unfolded by name only. *)
Arguments collapse : simpl never.
Arguments resetWidth : simpl never.
Arguments handleMouseDown : simpl never.
Arguments handleMouseMove : simpl never.
Arguments handleMouseUp : simpl never.
Arguments rerender : simpl never.
Arguments dispatch : simpl never.
Arguments tick : simpl never.
Arguments mount : simpl never.
Arguments Css.num : simpl never.
Arguments Css.px : simpl never.
Arguments Css.calc_rest : simpl never.
Arguments Css.pixels : simpl never.
Arguments Css.subtracted : simpl never.

(** ** Reading rendered values back *)
Section CssFacts.

Lemma length_append (a b : string) :
  String.length (a ++ b) = (String.length a + String.length b)%nat.
Proof. induction a as [|c a IH]; simpl; [done | by rewrite IH]. Qed.

Lemma strip_px_app (d : string) : Css.strip_px (d ++ "px") = Some d.
Proof.
  induction d as [|c d IH]; [done|].
  change (Css.strip_px (String c d ++ "px"))
    with (if String.eqb (String c (d ++ "px")) "px" then Some ""
          else option_map (String c) (Css.strip_px (d ++ "px"))).
  rewrite IH.
  destruct (String.eqb_spec (String c (d ++ "px")) "px") as [E|_]; [|done].
  apply (f_equal String.length) in E. simpl in E.
  rewrite length_append in E. simpl in E. lia.
Qed.

Lemma to_int_proper (n : Z) :
  Z.to_int n ≠ Decimal.Pos Decimal.Nil ∧ Z.to_int n ≠ Decimal.Neg Decimal.Nil.
Proof.
  destruct n as [|p|p]; simpl; split; try discriminate;
    intros E; injection E; apply DecimalPos.Unsigned.to_uint_nonnil.
Qed.

(** The pixel reading inverts [`${n}px`], for every integer. *)
Lemma pixels_px (n : Z) : Css.pixels (Css.px n) = Some n.
Proof.
  unfold Css.pixels, Css.px.
  destruct (String.eqb_spec (Css.num n ++ "px") "0") as [E|_].
  - apply (f_equal String.length) in E. rewrite length_append in E.
    simpl in E. lia.
  - rewrite strip_px_app. unfold Css.num.
    destruct (to_int_proper n) as [Hp Hn].
    rewrite (NilZero.isi _ Hp Hn). simpl. by rewrite DecimalZ.of_to.
Qed.

Lemma px_inj (n m : Z) : Css.px n = Css.px m → n = m.
Proof.
  intros E. apply (f_equal Css.pixels) in E.
  rewrite !pixels_px in E. congruence.
Qed.

Lemma within_px (lo hi n : Z) :
  Css.within lo hi (Css.px n) = true ↔ lo ≤ n ≤ hi.
Proof. unfold Css.within. rewrite pixels_px. lia. Qed.

Lemma string_app_assoc (a b c : string) : (a ++ b) ++ c = a ++ (b ++ c).
Proof.
  induction a as [|x a IH]; [done|].
  change (String x ((a ++ b) ++ c) = String x (a ++ (b ++ c))).
  by rewrite IH.
Qed.

Lemma strip_prefix_app (p v : string) : Css.strip_prefix p (p ++ v) = Some v.
Proof.
  induction p as [|a p IH]; [by destruct v|].
  change (Css.strip_prefix (String a p) (String a p ++ v))
    with (if Ascii.eqb a a then Css.strip_prefix p (p ++ v) else None).
  by rewrite Ascii.eqb_refl.
Qed.

Lemma strip_close_app (d : string) : Css.strip_close (d ++ ")") = Some d.
Proof.
  induction d as [|c d IH]; [done|].
  change (Css.strip_close (String c d ++ ")"))
    with (if String.eqb (String c (d ++ ")")) ")" then Some ""
          else option_map (String c) (Css.strip_close (d ++ ")"))).
  rewrite IH.
  destruct (String.eqb_spec (String c (d ++ ")")) ")") as [E|_]; [|done].
  apply (f_equal String.length) in E. simpl in E.
  rewrite length_append in E. simpl in E. lia.
Qed.

(** The reading of a [calc] value inverts [`calc(100% - ${n}px)`], for
    every integer. *)
Lemma subtracted_calc_rest (n : Z) : Css.subtracted (Css.calc_rest n) = Some n.
Proof.
  unfold Css.subtracted, Css.calc_rest. rewrite strip_prefix_app.
  replace (Css.num n ++ "px)") with ((Css.num n ++ "px") ++ ")")
    by apply string_app_assoc.
  rewrite strip_close_app. apply pixels_px.
Qed.

End CssFacts.

(** ** The bound on [newWidth] *)
Section Clamp.

Lemma clamp_max_min (x : Z) : clamp x = Z.max 240 (Z.min 480 x).
Proof. unfold clamp. repeat case_match; lia. Qed.

Lemma clamp_range (x : Z) : 240 ≤ clamp x ≤ 480.
Proof. rewrite clamp_max_min. lia. Qed.

Lemma clamp_below (x : Z) : x < 240 → clamp x = 240.
Proof. rewrite clamp_max_min. lia. Qed.

Lemma clamp_above (x : Z) : 480 < x → clamp x = 480.
Proof. rewrite clamp_max_min. lia. Qed.

Lemma clamp_inside (x : Z) : 240 ≤ x ≤ 480 → clamp x = x.
Proof. rewrite clamp_max_min. lia. Qed.

End Clamp.

(** ** What one call of a handler does *)

Section Handlers.

Variables (s : state) (sb nb : element).
Hypothesis Hsb : sidebarRef s = Some sb.
Hypothesis Hnb : navbarRef s = Some nb.

Lemma both_present_true : both_present s = true.
Proof using Hsb Hnb. unfold both_present. by rewrite Hsb, Hnb. Qed.

(** The state after a mouse move during a drag, field by field. *)
Lemma handleMouseMove_dragging (e : MouseEvent) :
  isResizingRef s = true →
  handleMouseMove e s =
    set_navbarRef
      (Some (setProperty "width" (Css.calc_rest (clamp (clientX e)))
               (setProperty "left" (Css.px (clamp (clientX e))) nb)))
      (set_sidebarRef
         (Some (setProperty "width" (Css.px (clamp (clientX e))) sb)) s).
Proof using Hsb Hnb.
  intros Hr. unfold handleMouseMove. rewrite Hr, both_present_true. simpl.
  unfold andThen, on_sidebar, on_navbar. simpl. by rewrite Hsb, Hnb.
Qed.

Lemma collapse_present :
  collapse s =
    set_timers (timers s ++ [(now s + 300, SetIsResetting false)]%nat)
      (log [SetTimeout (SetIsResetting false) 300]
         (set_navbarRef
            (Some (setProperty "left" "0" (setProperty "width" "100%" nb)))
            (set_sidebarRef (Some (setProperty "width" "0" sb))
               (setIsResetting true (setIsCollapsed true s))))).
Proof using Hsb Hnb.
  unfold collapse. rewrite both_present_true.
  unfold andThen, on_sidebar, on_navbar, setTimeout, andThen. simpl.
  by rewrite Hsb, Hnb.
Qed.

Lemma resetWidth_present :
  resetWidth s =
    set_timers (timers s ++ [(now s + 300, SetIsResetting false)]%nat)
      (log [SetTimeout (SetIsResetting false) 300]
         (set_navbarRef
            (Some (setProperty "left" (if isMobile s then "100%" else "240px")
                     (setProperty "width"
                        (if isMobile s then "0" else "calc(100% - 240px)") nb)))
            (set_sidebarRef
               (Some (setProperty "width"
                        (if isMobile s then "100%" else "240px") sb))
               (setIsResetting true (setIsCollapsed false s))))).
Proof using Hsb Hnb.
  unfold resetWidth. rewrite both_present_true.
  unfold andThen, on_sidebar, on_navbar, setTimeout, andThen. simpl.
  by rewrite Hsb, Hnb.
Qed.

End Handlers.

Lemma both_present_false (s : state) :
  sidebarRef s = None ∨ navbarRef s = None → both_present s = false.
Proof. unfold both_present. intros [-> | ->]; [done | by destruct (sidebarRef s)]. Qed.

Lemma both_present_inv (s : state) :
  both_present s = true →
  ∃ sb nb, sidebarRef s = Some sb ∧ navbarRef s = Some nb.
Proof.
  unfold both_present. destruct (sidebarRef s), (navbarRef s); naive_solver.
Qed.

(** ** Drag resize *)

(** C1: a mouse move handled during a drag, with both elements present,
    sets the sidebar's width to [clientX] clamped into [240, 480]: 240 below
    the range, 480 above it, [clientX] itself inside it. *)
Theorem C1_handleMouseMove_clamps_width
    (s : state) (e : MouseEvent) (sb nb : element) :
  isResizingRef s = true →
  sidebarRef s = Some sb →
  navbarRef s = Some nb →
  let s' := handleMouseMove e s in
  sidebar_width s' = Some (Css.px (Z.max 240 (Z.min 480 (clientX e))))
  ∧ sidebar_width s' ≫= Css.pixels = Some (Z.max 240 (Z.min 480 (clientX e)))
  ∧ (clientX e < 240 → sidebar_width s' = Some "240px")
  ∧ (480 < clientX e → sidebar_width s' = Some "480px")
  ∧ (240 ≤ clientX e ≤ 480 → sidebar_width s' = Some (Css.px (clientX e))).
Proof.
  intros Hr Hsb Hnb s'. subst s'.
  rewrite (handleMouseMove_dragging s sb nb Hsb Hnb e Hr).
  assert (Hw : sidebar_width
                 (set_navbarRef
                    (Some (setProperty "width" (Css.calc_rest (clamp (clientX e)))
                             (setProperty "left" (Css.px (clamp (clientX e))) nb)))
                    (set_sidebarRef
                       (Some (setProperty "width" (Css.px (clamp (clientX e))) sb)) s))
               = Some (Css.px (clamp (clientX e)))).
  { unfold sidebar_width. simpl. apply lookup_insert_eq. }
  rewrite Hw. rewrite <- clamp_max_min. repeat split.
  - simpl. apply pixels_px.
  - intros H. by rewrite (clamp_below _ H).
  - intros H. by rewrite (clamp_above _ H).
  - intros H. by rewrite (clamp_inside _ H).
Qed.

Lemma C1_witness :
  isResizingRef dragging = true
  ∧ is_Some (sidebarRef dragging)
  ∧ is_Some (navbarRef dragging)
  ∧ sidebar_width (handleMouseMove {| clientX := 100 |} dragging) = Some "240px"
  ∧ sidebar_width (handleMouseMove {| clientX := 999 |} dragging) = Some "480px"
  ∧ sidebar_width (handleMouseMove {| clientX := 321 |} dragging) = Some "321px".
Proof.
  split; [reflexivity|]. split; [vm_compute; eauto|]. split; [vm_compute; eauto|].
  split; [|split].
  - edestruct (C1_handleMouseMove_clamps_width dragging {| clientX := 100 |})
      as (_ & _ & H & _); [reflexivity..|].
    apply H. simpl. lia.
  - edestruct (C1_handleMouseMove_clamps_width dragging {| clientX := 999 |})
      as (_ & _ & _ & H & _); [reflexivity..|].
    apply H. simpl. lia.
  - edestruct (C1_handleMouseMove_clamps_width dragging {| clientX := 321 |})
      as (_ & _ & _ & _ & H); [reflexivity..|].
    apply H. simpl. lia.
Defined.

(** C2: after a mouse move handled during a drag, with both elements
    present, the navbar's [left] is the clamped width [w] that the sidebar
    received, and the navbar's [width] is [calc(100% - w px)]: read back,
    the sidebar is [w] pixels wide, the navbar starts at [w] pixels, and
    its width is 100% less [w] pixels. *)
Theorem C2_navbar_mirrors_sidebar
    (s : state) (e : MouseEvent) (sb nb : element) :
  isResizingRef s = true →
  sidebarRef s = Some sb →
  navbarRef s = Some nb →
  let s' := handleMouseMove e s in
  ∃ w : Z,
    w = Z.max 240 (Z.min 480 (clientX e))
    ∧ sidebar_width s' = Some (Css.px w)
    ∧ navbar_left s' = Some (Css.px w)
    ∧ navbar_width s' = Some (Css.calc_rest w)
    ∧ navbar_left s' = sidebar_width s'
    ∧ sidebar_width s' ≫= Css.pixels = Some w
    ∧ navbar_left s' ≫= Css.pixels = Some w
    ∧ navbar_width s' ≫= Css.subtracted = Some w
    ∧ (clientX e < 240 →
       navbar_left s' = Some "240px"
       ∧ navbar_width s' = Some "calc(100% - 240px)")
    ∧ (480 < clientX e →
       navbar_left s' = Some "480px"
       ∧ navbar_width s' = Some "calc(100% - 480px)").
Proof.
  intros Hr Hsb Hnb s'. subst s'.
  rewrite (handleMouseMove_dragging s sb nb Hsb Hnb e Hr).
  exists (clamp (clientX e)).
  unfold sidebar_width, navbar_left, navbar_width. simpl.
  split; [apply clamp_max_min|].
  rewrite !lookup_insert_eq, lookup_insert_ne by done.
  rewrite lookup_insert_eq. simpl.
  rewrite !pixels_px, subtracted_calc_rest.
  do 7 (split; [done|]). split.
  - intros H. by rewrite (clamp_below _ H).
  - intros H. by rewrite (clamp_above _ H).
Qed.

Lemma C2_witness :
  isResizingRef dragging = true
  ∧ is_Some (sidebarRef dragging)
  ∧ is_Some (navbarRef dragging)
  ∧ sidebar_width (handleMouseMove {| clientX := 700 |} dragging) = Some "480px"
  ∧ navbar_left (handleMouseMove {| clientX := 700 |} dragging) = Some "480px"
  ∧ navbar_width (handleMouseMove {| clientX := 700 |} dragging)
    = Some "calc(100% - 480px)"
  ∧ navbar_left (handleMouseMove {| clientX := 321 |} dragging) = Some "321px"
  ∧ navbar_width (handleMouseMove {| clientX := 321 |} dragging)
    = Some "calc(100% - 321px)"
  ∧ navbar_width (handleMouseMove {| clientX := 321 |} dragging) ≫= Css.subtracted
    = Some 321.
Proof.
  split; [reflexivity|]. split; [vm_compute; eauto|]. split; [vm_compute; eauto|].
  edestruct (C2_navbar_mirrors_sidebar dragging {| clientX := 700 |})
    as (w & Hw & Hs & _ & _ & _ & _ & _ & _ & _ & Hhi); [reflexivity..|].
  edestruct (C2_navbar_mirrors_sidebar dragging {| clientX := 321 |})
    as (v & Hv & _ & Hl & Hn & _ & _ & _ & Hsub & _); [reflexivity..|].
  simpl in Hw, Hv. subst w v.
  destruct Hhi as [Hl' Hn']; [simpl; lia|].
  split; [exact Hs|]. split; [exact Hl'|]. split; [exact Hn'|].
  split; [exact Hl|]. split; [exact Hn | exact Hsub].
Defined.

(** C9: a mouse move handled while the resizing flag is false changes
    nothing: the state is returned as it was, and with it the sidebar's
    width and the navbar's left and width. *)
Theorem C9_handleMouseMove_idle (s : state) (e : MouseEvent) :
  isResizingRef s = false →
  handleMouseMove e s = s
  ∧ sidebar_width (handleMouseMove e s) = sidebar_width s
  ∧ navbar_left (handleMouseMove e s) = navbar_left s
  ∧ navbar_width (handleMouseMove e s) = navbar_width s.
Proof.
  intros Hr. assert (E : handleMouseMove e s = s).
  { unfold handleMouseMove. by rewrite Hr. }
  by rewrite E.
Qed.

Lemma C9_witness :
  isResizingRef desktop = false
  ∧ handleMouseMove {| clientX := 400 |} desktop = desktop
  ∧ sidebar_width (handleMouseMove {| clientX := 400 |} desktop) = Some "240px".
Proof.
  split; [reflexivity|].
  destruct (C9_handleMouseMove_idle desktop {| clientX := 400 |} eq_refl)
    as (E & W & _).
  split; [exact E|]. rewrite W. reflexivity.
Defined.

(** ** Collapse and expand *)

(** What [collapse] and [resetWidth] leave alone, whether or not the
    elements are present. *)
Section Frame.

Variable s : state.

Lemma collapse_isMobile : isMobile (collapse s) = isMobile s.
Proof. unfold collapse. by destruct (both_present s). Qed.

Lemma resetWidth_isMobile : isMobile (resetWidth s) = isMobile s.
Proof. unfold resetWidth. by destruct (both_present s). Qed.

Lemma collapse_listeners :
  listeners (collapse s) = listeners s
  ∧ isResizingRef (collapse s) = isResizingRef s.
Proof. unfold collapse. by destruct (both_present s). Qed.

Lemma resetWidth_listeners :
  listeners (resetWidth s) = listeners s
  ∧ isResizingRef (resetWidth s) = isResizingRef s.
Proof. unfold resetWidth. by destruct (both_present s). Qed.

Lemma collapse_both_present : both_present (collapse s) = both_present s.
Proof.
  unfold collapse. destruct (both_present s) eqn:E; [|done].
  destruct (both_present_inv s E) as (sb & nb & Hsb & Hnb).
  unfold both_present, andThen, on_sidebar, on_navbar. simpl.
  by rewrite Hsb, Hnb.
Qed.

Lemma resetWidth_both_present : both_present (resetWidth s) = both_present s.
Proof.
  unfold resetWidth. destruct (both_present s) eqn:E; [|done].
  destruct (both_present_inv s E) as (sb & nb & Hsb & Hnb).
  unfold both_present, andThen, on_sidebar, on_navbar. simpl.
  by rewrite Hsb, Hnb.
Qed.

End Frame.

Section CollapseExpand.

Variables (s : state) (sb nb : element).
Hypothesis Hsb : sidebarRef s = Some sb.
Hypothesis Hnb : navbarRef s = Some nb.

Lemma collapse_width :
  sidebar_width (collapse s) = Some "0" ∧ isCollapsed (collapse s) = true.
Proof using Hsb Hnb.
  rewrite (collapse_present s sb nb Hsb Hnb).
  unfold sidebar_width. simpl. by rewrite lookup_insert_eq.
Qed.

Lemma resetWidth_width :
  sidebar_width (resetWidth s) = Some (if isMobile s then "100%" else "240px")
  ∧ isCollapsed (resetWidth s) = false.
Proof using Hsb Hnb.
  rewrite (resetWidth_present s sb nb Hsb Hnb).
  unfold sidebar_width. simpl. by rewrite lookup_insert_eq.
Qed.

Lemma collapse_refs :
  ∃ sb' nb',
    sidebarRef (collapse s) = Some sb' ∧ navbarRef (collapse s) = Some nb'.
Proof using Hsb Hnb.
  apply both_present_inv. rewrite collapse_both_present.
  by apply (both_present_true s sb nb).
Qed.

Lemma resetWidth_refs :
  ∃ sb' nb',
    sidebarRef (resetWidth s) = Some sb' ∧ navbarRef (resetWidth s) = Some nb'.
Proof using Hsb Hnb.
  apply both_present_inv. rewrite resetWidth_both_present.
  by apply (both_present_true s sb nb).
Qed.

End CollapseExpand.

(** C3, as stated, fails on a phone: there expanding a collapsed sidebar
    gives it the width [100%], not 240. *)
Lemma C3_counterexample :
  is_Some (sidebarRef phone)
  ∧ is_Some (navbarRef phone)
  ∧ sidebar_width (collapse phone) = Some "0"
  ∧ sidebar_width (resetWidth (collapse phone)) = Some "100%"
  ∧ sidebar_width (resetWidth (collapse phone)) ≠ Some "240px"
  ∧ sidebar_width (resetWidth (collapse phone)) ≫= Css.pixels ≠ Some 240.
Proof. vm_compute. repeat split; eauto; discriminate. Qed.

(** C3 (amended): with both elements present, [collapse] sets the sidebar's
    width to 0 and the collapsed flag to true; [resetWidth] called next
    clears the flag and sets the width to 240px when the layout is not
    mobile, and to 100% when it is. *)
Theorem C3_collapse_then_expand (s : state) (sb nb : element) :
  sidebarRef s = Some sb →
  navbarRef s = Some nb →
  sidebar_width (collapse s) = Some "0"
  ∧ sidebar_width (collapse s) ≫= Css.pixels = Some 0
  ∧ isCollapsed (collapse s) = true
  ∧ sidebar_width (resetWidth (collapse s))
    = Some (if isMobile s then "100%" else "240px")
  ∧ isCollapsed (resetWidth (collapse s)) = false
  ∧ (isMobile s = false →
     sidebar_width (resetWidth (collapse s)) ≫= Css.pixels = Some 240).
Proof.
  intros Hsb Hnb.
  destruct (collapse_width s sb nb Hsb Hnb) as [Hw Hc].
  destruct (collapse_refs s sb nb Hsb Hnb) as (sb' & nb' & Hsb' & Hnb').
  destruct (resetWidth_width (collapse s) sb' nb' Hsb' Hnb') as [Hw' Hc'].
  rewrite collapse_isMobile in Hw'.
  rewrite Hw, Hw'. repeat split; try done.
  intros ->. reflexivity.
Qed.

Lemma C3_witness :
  is_Some (sidebarRef desktop)
  ∧ is_Some (navbarRef desktop)
  ∧ sidebar_width (collapse desktop) = Some "0"
  ∧ sidebar_width (resetWidth (collapse desktop)) = Some "240px".
Proof.
  split; [vm_compute; eauto|]. split; [vm_compute; eauto|].
  edestruct (C3_collapse_then_expand desktop) as (H0 & _ & _ & H1 & _);
    [reflexivity..|].
  split; [exact H0 | exact H1].
Defined.

(** C10: when the sidebar element or the navbar element is absent,
    [collapse] and [resetWidth] return the state unchanged: flags, styles,
    pending timeouts and the call log are all as before. *)
Theorem C10_absent_element_noop (s : state) :
  sidebarRef s = None ∨ navbarRef s = None →
  collapse s = s
  ∧ resetWidth s = s
  ∧ timers (collapse s) = timers s
  ∧ timers (resetWidth s) = timers s
  ∧ (isCollapsed (collapse s), isResetting (collapse s))
    = (isCollapsed s, isResetting s)
  ∧ (isCollapsed (resetWidth s), isResetting (resetWidth s))
    = (isCollapsed s, isResetting s).
Proof.
  intros H. apply both_present_false in H.
  assert (Ec : collapse s = s) by (unfold collapse; by rewrite H).
  assert (Er : resetWidth s = s) by (unfold resetWidth; by rewrite H).
  by rewrite Ec, Er.
Qed.

Lemma C10_witness :
  (sidebarRef navbar_detached = None ∨ navbarRef navbar_detached = None)
  ∧ collapse navbar_detached = navbar_detached
  ∧ resetWidth navbar_detached = navbar_detached.
Proof.
  assert (H : sidebarRef navbar_detached = None ∨ navbarRef navbar_detached = None)
    by (right; reflexivity).
  split; [exact H|].
  destruct (C10_absent_element_noop navbar_detached H) as (Ec & Er & _).
  split; [exact Ec | exact Er].
Defined.

(** ** Dispatch and timers *)

Lemma dispatch_preserves (P : state → Prop) (type : string) (e : MouseEvent) :
  (∀ h s, P s → P (invoke h e s)) →
  ∀ s, P s → P (dispatch type e s).
Proof.
  intros Hinv s. unfold dispatch. generalize (listeners s) as ls.
  intros ls. revert s. induction ls as [|l ls IH]; intros s Hs; [done|].
  simpl. apply IH. unfold dispatch_one. case_match; [by apply Hinv | done].
Qed.

Lemma handleMouseMove_transition (e : MouseEvent) (s : state) :
  isResetting (handleMouseMove e s) = isResetting s
  ∧ timers (handleMouseMove e s) = timers s
  ∧ isCollapsed (handleMouseMove e s) = isCollapsed s.
Proof.
  unfold handleMouseMove.
  by destruct (isResizingRef s), (both_present s).
Qed.

Lemma invoke_transition (h : handler) (e : MouseEvent) (s : state) :
  isResetting (invoke h e s) = isResetting s
  ∧ timers (invoke h e s) = timers s
  ∧ isCollapsed (invoke h e s) = isCollapsed s.
Proof. destruct h; [apply handleMouseMove_transition | done]. Qed.

Lemma dispatch_transition (type : string) (e : MouseEvent) (s : state) :
  isResetting (dispatch type e s) = isResetting s
  ∧ timers (dispatch type e s) = timers s
  ∧ isCollapsed (dispatch type e s) = isCollapsed s.
Proof.
  apply (dispatch_preserves
           (λ s', isResetting s' = isResetting s ∧ timers s' = timers s
                  ∧ isCollapsed s' = isCollapsed s)); [|done].
  intros h s' (H1 & H2 & H3).
  destruct (invoke_transition h e s') as (-> & -> & ->). done.
Qed.

Lemma handleMouseDown_transition (s : state) :
  isResetting (handleMouseDown s) = isResetting s
  ∧ timers (handleMouseDown s) = timers s
  ∧ isCollapsed (handleMouseDown s) = isCollapsed s.
Proof.
  unfold handleMouseDown, andThen, addEventListener, andThen.
  by repeat case_decide.
Qed.

(** Running due callbacks touches [isResetting] only. *)
Lemma run_callbacks_timers (due : list (nat * callback)) (s : state) :
  timers (foldl (λ acc x, run_callback x.2 acc) s due) = timers s
  ∧ now (foldl (λ acc x, run_callback x.2 acc) s due) = now s.
Proof.
  revert s. induction due as [|[d [b]] due IH]; intros s; [done|].
  simpl. by destruct (IH (setIsResetting b s)) as [-> ->].
Qed.

Lemma tick_timers (dt : nat) (s : state) :
  timers (tick dt s) = filter (λ x, ¬ (x.1 ≤ now s + dt)%nat) (timers s)
  ∧ now (tick dt s) = (now s + dt)%nat.
Proof. unfold tick. by destruct (run_callbacks_timers
    (filter (λ x, (x.1 ≤ now s + dt)%nat) (timers s))
    (set_now (now s + dt)%nat
       (set_timers (filter (λ x, ¬ (x.1 ≤ now s + dt)%nat) (timers s)) s)))
    as [-> ->].
Qed.

(** Nothing due: the flag is as before. *)
Lemma tick_nothing_due (dt : nat) (s : state) :
  Forall (λ x, (now s + dt < x.1)%nat) (timers s) →
  isResetting (tick dt s) = isResetting s.
Proof.
  intros H. unfold tick.
  replace (filter (λ x, (x.1 ≤ now s + dt)%nat) (timers s)) with
    (@nil (nat * callback)); [done|].
  symmetry. induction H as [|x l Hx _ IH]; [done|].
  rewrite filter_cons_False by lia. exact IH.
Qed.

(** A timeout scheduled last and due by the new time runs last. *)
Lemma tick_last_due (dt : nat) (s : state) (pending : list (nat * callback))
    (d : nat) (b : bool) :
  timers s = (pending ++ [(d, SetIsResetting b)])%list →
  (d ≤ now s + dt)%nat →
  isResetting (tick dt s) = b.
Proof.
  intros Ht Hd. unfold tick.
  set (s0 := set_now _ _). clearbody s0.
  rewrite Ht, filter_app, filter_cons_True by (simpl; lia).
  rewrite filter_nil, foldl_app. reflexivity.
Qed.

(** ** The transition flag *)

(** C6: with both elements present, [collapse] and [resetWidth] each set
    [isResetting] to true and schedule, with the same delay of 300 ms, the
    callback that sets it back to false: the callback is still pending
    before 300 ms have passed and has run once they have.  Mouse events, and
    re-renders whose effects do not run, neither touch the flag nor
    schedule anything, and a tick at which nothing is due leaves the flag
    alone. *)
Theorem C6_transition_flag (s : state) (sb nb : element) :
  sidebarRef s = Some sb →
  navbarRef s = Some nb →
  (∀ op, op = collapse ∨ op = resetWidth →
     isResetting (op s) = true
     ∧ timers (op s)
       = (timers s ++ [((now s + 300)%nat, SetIsResetting false)])%list
     ∧ (∀ dt, (dt < 300)%nat →
          ((now s + 300)%nat, SetIsResetting false) ∈ timers (tick dt (op s)))
     ∧ (∀ dt, (300 ≤ dt)%nat →
          isResetting (tick dt (op s)) = false
          ∧ ((now s + 300)%nat, SetIsResetting false) ∉ timers (tick dt (op s))))
  ∧ (∀ ev, ev = MouseDown ∨ (∃ e, ev = MouseMove e) ∨ (∃ e, ev = MouseUp e)
           ∨ ev = Render (isMobile s) (pathname s) →
       isResetting (step ev s) = isResetting s
       ∧ timers (step ev s) = timers s)
  ∧ (∀ dt, Forall (λ x, (now s + dt < x.1)%nat) (timers s) →
       isResetting (tick dt s) = isResetting s).
Proof.
  intros Hsb Hnb. split; [|split].
  - intros op Hop.
    assert (Hflag : isResetting (op s) = true
                    ∧ timers (op s)
                      = (timers s
                         ++ [((now s + 300)%nat, SetIsResetting false)])%list
                    ∧ now (op s) = now s).
    { destruct Hop as [-> | ->].
      - by rewrite (collapse_present s sb nb Hsb Hnb).
      - by rewrite (resetWidth_present s sb nb Hsb Hnb). }
    destruct Hflag as (Hf & Ht & Hn). repeat split; [done | done | | |].
    + intros dt Hdt. destruct (tick_timers dt (op s)) as [-> _].
      rewrite Ht, Hn. apply list_elem_of_filter. split; [simpl; lia|].
      apply elem_of_app. right. apply list_elem_of_singleton. done.
    + apply (tick_last_due dt (op s) (timers s) (now s + 300)%nat false Ht).
      rewrite Hn. lia.
    + destruct (tick_timers dt (op s)) as [-> _].
      rewrite Hn. intros Hin. apply list_elem_of_filter in Hin as [Hin _].
      simpl in Hin. lia.
  - intros ev Hev. destruct Hev as [-> | [[e ->] | [[e ->] | ->]]]; simpl.
    + by destruct (handleMouseDown_transition s) as (-> & -> & _).
    + by destruct (dispatch_transition "mousemove" e s) as (-> & -> & _).
    + by destruct (dispatch_transition "mouseup" e s) as (-> & -> & _).
    + unfold rerender. rewrite !bool_decide_eq_true_2 by done. done.
  - intros dt. apply tick_nothing_due.
Qed.

Lemma C6_witness :
  is_Some (sidebarRef desktop)
  ∧ is_Some (navbarRef desktop)
  ∧ isResetting (collapse desktop) = true
  ∧ timers (resetWidth desktop)
    = (timers desktop
       ++ [((now desktop + 300)%nat, SetIsResetting false)])%list
  ∧ isResetting (tick 300 (collapse desktop)) = false
  ∧ isResetting (step MouseDown desktop) = isResetting desktop.
Proof.
  split; [vm_compute; eauto|]. split; [vm_compute; eauto|].
  edestruct (C6_transition_flag desktop) as (Hop & Hev & _); [reflexivity..|].
  destruct (Hop collapse (or_introl eq_refl)) as (H1 & _ & _ & H2).
  destruct (Hop resetWidth (or_intror eq_refl)) as (_ & H3 & _).
  destruct (H2 300%nat (le_n _)) as [H4 _].
  destruct (Hev MouseDown (or_introl eq_refl)) as [H5 _].
  split; [exact H1|]. split; [exact H3|]. split; [exact H4 | exact H5].
Defined.

(** ** Responsive switching *)

Lemma rerender_to_mobile (p : string) (s : state) :
  isMobile s = false →
  rerender true p s = collapse (collapse (rendered true p s)).
Proof.
  intros Hm. unfold rerender. rewrite Hm. simpl. rewrite orb_true_r.
  unfold andThen, effect_isMobile, effect_pathname. simpl.
  by rewrite collapse_isMobile.
Qed.

Lemma rerender_to_desktop (p : string) (s : state) :
  isMobile s = true →
  rerender false p s = resetWidth (rendered false p s).
Proof.
  intros Hm. unfold rerender. rewrite Hm. simpl. rewrite orb_true_r.
  unfold andThen, effect_isMobile, effect_pathname. simpl.
  by rewrite resetWidth_isMobile.
Qed.

Lemma rerender_path_on_mobile (p : string) (s : state) :
  isMobile s = true →
  p ≠ pathname s →
  rerender true p s = collapse (rendered true p s).
Proof.
  intros Hm Hp. unfold rerender. rewrite Hm.
  rewrite (bool_decide_eq_false_2 (p = pathname s)) by done. reflexivity.
Qed.

Lemma rerender_same (s : state) :
  rerender (isMobile s) (pathname s) s = rendered (isMobile s) (pathname s) s.
Proof. unfold rerender. by rewrite !bool_decide_eq_true_2. Qed.

Lemma mount_mobile (p : string) :
  mount true p
  = collapse (collapse (set_navbarRef (Some (Element ∅))
                          (set_sidebarRef (Some (Element ∅)) (initial true p)))).
Proof.
  unfold mount, andThen, effect_isMobile, effect_pathname. simpl.
  by rewrite ?collapse_isMobile.
Qed.

Lemma mount_desktop (p : string) :
  mount false p
  = resetWidth (set_navbarRef (Some (Element ∅))
                  (set_sidebarRef (Some (Element ∅)) (initial false p))).
Proof.
  unfold mount, andThen, effect_isMobile, effect_pathname. simpl.
  by rewrite ?resetWidth_isMobile.
Qed.

(** C7: with both elements present, a render in which the breakpoint query
    turns to mobile runs [collapse] (sidebar width 0, collapsed flag true);
    one in which it turns to desktop runs [resetWidth], which restores the
    expanded width of 240px and clears the flag; and one in which the path
    changes while the query stays mobile runs [collapse] as well.  The same
    holds for the first render, by the query's value at mount. *)
Theorem C7_responsive_switching (s : state) (p : string) (sb nb : element) :
  sidebarRef s = Some sb →
  navbarRef s = Some nb →
  (isMobile s = false →
     rerender true p s = collapse (collapse (rendered true p s))
     ∧ sidebar_width (rerender true p s) = Some "0"
     ∧ isCollapsed (rerender true p s) = true)
  ∧ (isMobile s = true →
     rerender false p s = resetWidth (rendered false p s)
     ∧ sidebar_width (rerender false p s) = Some "240px"
     ∧ isCollapsed (rerender false p s) = false)
  ∧ (isMobile s = true → p ≠ pathname s →
     rerender true p s = collapse (rendered true p s)
     ∧ sidebar_width (rerender true p s) = Some "0"
     ∧ isCollapsed (rerender true p s) = true)
  ∧ (sidebar_width (mount true p) = Some "0"
     ∧ isCollapsed (mount true p) = true
     ∧ sidebar_width (mount false p) = Some "240px"
     ∧ isCollapsed (mount false p) = false).
Proof.
  intros Hsb Hnb.
  assert (Hr : ∀ m, sidebarRef (rendered m p s) = Some sb
                    ∧ navbarRef (rendered m p s) = Some nb) by done.
  split; [|split; [|split]].
  - intros Hm. rewrite (rerender_to_mobile p s Hm). split; [done|].
    destruct (Hr true) as [H1 H2].
    destruct (collapse_refs _ sb nb H1 H2) as (sb' & nb' & H1' & H2').
    apply (collapse_width _ sb' nb' H1' H2').
  - intros Hm. rewrite (rerender_to_desktop p s Hm). split; [done|].
    destruct (Hr false) as [H1 H2].
    apply (resetWidth_width _ sb nb H1 H2).
  - intros Hm Hp. rewrite (rerender_path_on_mobile p s Hm Hp). split; [done|].
    destruct (Hr true) as [H1 H2].
    apply (collapse_width _ sb nb H1 H2).
  - repeat split; vm_compute; reflexivity.
Qed.

Lemma C7_witness :
  is_Some (sidebarRef desktop)
  ∧ is_Some (navbarRef desktop)
  ∧ isMobile desktop = false
  ∧ sidebar_width (rerender true "/documents" desktop) = Some "0"
  ∧ isCollapsed (rerender true "/documents" desktop) = true
  ∧ isMobile phone = true
  ∧ sidebar_width (rerender false "/documents" phone) = Some "240px"
  ∧ sidebar_width (rerender true "/settings" (resetWidth phone)) = Some "0".
Proof.
  split; [vm_compute; eauto|]. split; [vm_compute; eauto|].
  edestruct (C7_responsive_switching desktop "/documents") as (Hd & _);
    [reflexivity..|].
  edestruct (C7_responsive_switching phone "/documents") as (_ & Hp & _);
    [reflexivity..|].
  edestruct (C7_responsive_switching (resetWidth phone) "/settings")
    as (_ & _ & Hq & _); [reflexivity..|].
  destruct (Hd eq_refl) as (_ & H1 & H2).
  destruct (Hp eq_refl) as (_ & H3 & _).
  assert (Hne : "/settings" ≠ pathname (resetWidth phone)) by discriminate.
  destruct (Hq eq_refl Hne) as (_ & H4 & _).
  split; [reflexivity|]. split; [exact H1|]. split; [exact H2|].
  split; [reflexivity|]. split; [exact H3 | exact H4].
Defined.

(** ** The drag listeners *)

Section Listeners.

Lemma addEventListener_listeners
    (type : string) (h : handler) (s : state) (l : string * handler) :
  l ∈ listeners (addEventListener type h s)
  ↔ l ∈ listeners s ∨ l = (type, h).
Proof.
  unfold addEventListener, andThen. simpl.
  destruct (decide ((type, h) ∈ listeners s)) as [Hin | Hout]; simpl.
  - split; [by left|]. by intros [H | ->].
  - by rewrite elem_of_app, list_elem_of_singleton.
Qed.

Lemma addEventListener_render_id (type : string) (h : handler) (s : state) :
  render_id (addEventListener type h s) = render_id s.
Proof. unfold addEventListener, andThen. by case_decide. Qed.

Lemma handleMouseDown_listeners (s : state) (l : string * handler) :
  l ∈ listeners (handleMouseDown s)
  ↔ l ∈ listeners s ∨ l = move_listener (render_id s)
    ∨ l = up_listener (render_id s).
Proof.
  unfold handleMouseDown, andThen.
  rewrite !addEventListener_listeners, addEventListener_render_id.
  unfold move_listener, up_listener. simpl. naive_solver.
Qed.

Lemma handleMouseDown_flag (s : state) :
  isResizingRef (handleMouseDown s) = true.
Proof.
  unfold handleMouseDown, andThen, addEventListener, andThen.
  by repeat case_decide.
Qed.

Lemma handleMouseUp_listeners (r : nat) (s : state) (l : string * handler) :
  l ∈ listeners (handleMouseUp r s)
  ↔ l ∈ listeners s ∧ l ≠ move_listener r ∧ l ≠ up_listener r.
Proof.
  unfold handleMouseUp, andThen, removeEventListener, andThen,
    move_listener, up_listener. simpl.
  rewrite !list_elem_of_filter. naive_solver.
Qed.

Lemma handleMouseUp_flag (r : nat) (s : state) :
  isResizingRef (handleMouseUp r s) = false.
Proof. reflexivity. Qed.

Lemma handleMouseMove_listeners (e : MouseEvent) (s : state) :
  listeners (handleMouseMove e s) = listeners s
  ∧ isResizingRef (handleMouseMove e s) = isResizingRef s.
Proof.
  unfold handleMouseMove.
  destruct (isResizingRef s) eqn:Er; [|done].
  destruct (both_present s); [|done].
  split; [done | exact Er].
Qed.

Lemma move_up_distinct (r r' : nat) : move_listener r ≠ up_listener r'.
Proof. discriminate. Qed.

Lemma handleMouseDown_ok (s : state) :
  listeners_ok s → listeners_ok (handleMouseDown s).
Proof.
  intros [Hown Hpair]. split.
  - apply Forall_forall. intros l Hl.
    apply handleMouseDown_listeners in Hl as [Hl | [-> | ->]].
    + by apply (proj1 (Forall_forall _ _) Hown).
    + exists (render_id s). by left.
    + exists (render_id s). by right.
  - intros r. rewrite !handleMouseDown_listeners. specialize (Hpair r).
    unfold move_listener, up_listener in *. naive_solver.
Qed.

Lemma handleMouseUp_ok (r : nat) (s : state) :
  listeners_ok s → listeners_ok (handleMouseUp r s).
Proof.
  intros [Hown Hpair]. split.
  - apply Forall_forall. intros l Hl.
    apply handleMouseUp_listeners in Hl as [Hl _].
    by apply (proj1 (Forall_forall _ _) Hown).
  - intros r'. rewrite !handleMouseUp_listeners. specialize (Hpair r').
    unfold move_listener, up_listener in *. naive_solver.
Qed.

Lemma invoke_ok (h : handler) (e : MouseEvent) (s : state) :
  listeners_ok s → listeners_ok (invoke h e s).
Proof.
  destruct h as [r|r]; simpl.
  - unfold listeners_ok.
    by destruct (handleMouseMove_listeners e s) as [-> _].
  - apply handleMouseUp_ok.
Qed.

(** A mouse move reaches only [handleMouseMove], which registers and
    removes nothing. *)
Lemma dispatch_mousemove_fold (e : MouseEvent)
    (snap : list (string * handler)) (s : state) :
  Forall own_listener snap →
  let s' := foldl (dispatch_one "mousemove" e) s snap in
  listeners s' = listeners s ∧ isResizingRef s' = isResizingRef s.
Proof.
  intros Hsnap. revert s.
  induction Hsnap as [|l snap [r [-> | ->]] _ IH]; intros s; [done| |].
  - simpl. destruct (IH (dispatch_one "mousemove" e s (move_listener r)))
      as [-> ->].
    unfold dispatch_one. case_match; [|done].
    apply handleMouseMove_listeners.
  - simpl. apply IH.
Qed.

Lemma dispatch_mousemove_listeners (e : MouseEvent) (s : state) :
  Forall own_listener (listeners s) →
  listeners (dispatch "mousemove" e s) = listeners s
  ∧ isResizingRef (dispatch "mousemove" e s) = isResizingRef s.
Proof. apply dispatch_mousemove_fold. Qed.

(** A mouse up: what is left afterwards was there before, no [mouseup]
    listener of the snapshot is left, and either the flag has been
    cleared or nothing was called that changes the listeners. *)
Lemma dispatch_mouseup_fold (e : MouseEvent)
    (snap : list (string * handler)) (s : state) :
  let s' := foldl (dispatch_one "mouseup" e) s snap in
  listeners s' ⊆ listeners s
  ∧ (∀ r, up_listener r ∈ snap → up_listener r ∉ listeners s')
  ∧ (isResizingRef s' = false
     ∨ listeners s' = listeners s ∧ isResizingRef s' = isResizingRef s).
Proof.
  revert s. induction snap as [|l snap IH]; intros s; simpl.
  { split; [done|]. split; [|by right]. intros r Hr.
    by apply not_elem_of_nil in Hr. }
  destruct (IH (dispatch_one "mouseup" e s l)) as (Hsub & Hup & Hflag).
  assert (Hone : listeners (dispatch_one "mouseup" e s l) ⊆ listeners s).
  { unfold dispatch_one. case_match; [|done]. destruct l as [ty [r|r]]; simpl.
    - by destruct (handleMouseMove_listeners e s) as [-> _].
    - intros x Hx. by apply handleMouseUp_listeners in Hx as [Hx _]. }
  split; [by etrans|]. split.
  - intros r Hr. apply elem_of_cons in Hr as [<- | Hr]; [|by apply Hup].
    intros Hin. apply Hsub in Hin. revert Hin.
    unfold dispatch_one, up_listener. simpl.
    case_bool_decide as Hreg.
    + rewrite handleMouseUp_listeners. unfold up_listener. naive_solver.
    + done.
  - destruct Hflag as [Hf | [Hl Hf]]; [by left|].
    rewrite Hl, Hf. unfold dispatch_one. case_match; [|by right].
    destruct l as [ty [r|r]]; simpl.
    + right. apply handleMouseMove_listeners.
    + by left.
Qed.

Lemma dispatch_mouseup_clears (e : MouseEvent) (s : state) :
  drag_inv s →
  listeners (dispatch "mouseup" e s) = []
  ∧ isResizingRef (dispatch "mouseup" e s) = false.
Proof.
  intros [Hok Hflag].
  assert (Hok' : listeners_ok (dispatch "mouseup" e s)).
  { apply (dispatch_preserves listeners_ok); [|done].
    intros h s'. apply invoke_ok. }
  destruct (dispatch_mouseup_fold e (listeners s) s) as (Hsub & Hup & Hf).
  fold (dispatch "mouseup" e s) in Hsub, Hup, Hf.
  assert (Hnil : listeners (dispatch "mouseup" e s) = []).
  { destruct Hok' as [Hown Hpair].
    destruct (listeners (dispatch "mouseup" e s)) as [|l ls] eqn:E; [done|].
    exfalso.
    assert (Hl : l ∈ l :: ls) by apply list_elem_of_here.
    destruct (proj1 (Forall_forall _ _) Hown l Hl) as [r [-> | ->]].
    - apply Hpair in Hl. apply (Hup r); [|done]. by apply Hsub.
    - apply (Hup r); [|done]. by apply Hsub. }
  split; [done|].
  destruct Hf as [Hf | [Hl Hf]]; [done|].
  rewrite Hf. destruct (isResizingRef s) eqn:Er; [|done].
  exfalso. apply Hflag; [done|]. by rewrite <- Hl.
Qed.

End Listeners.

(** ** What the remaining operations leave alone *)

Section Frames.

Lemma setIsResetting_id (s : state) : setIsResetting (isResetting s) s = s.
Proof. by destruct s. Qed.

(** Due callbacks can only write [isResetting]. *)
Lemma run_callbacks_shape (due : list (nat * callback)) (s : state) :
  ∃ b, foldl (λ acc x, run_callback x.2 acc) s due = setIsResetting b s.
Proof.
  revert s. induction due as [|[d [b]] due IH]; intros s; simpl.
  - exists (isResetting s). by rewrite setIsResetting_id.
  - destruct (IH (setIsResetting b s)) as [b' ->]. by exists b'.
Qed.

Lemma tick_shape (dt : nat) (s : state) :
  ∃ b, tick dt s
       = setIsResetting b
           (set_now (now s + dt)%nat
              (set_timers
                 (filter (λ x, ¬ (x.1 ≤ now s + dt)%nat) (timers s)) s)).
Proof. unfold tick. apply run_callbacks_shape. Qed.

Lemma rerender_listeners (m : bool) (p : string) (s : state) :
  listeners (rerender m p s) = listeners s
  ∧ isResizingRef (rerender m p s) = isResizingRef s.
Proof.
  unfold rerender, andThen, effect_isMobile, effect_pathname, skip.
  repeat case_match;
    repeat match goal with
      | |- context [listeners (collapse ?x)] =>
          destruct (collapse_listeners x) as [-> ->]
      | |- context [listeners (resetWidth ?x)] =>
          destruct (resetWidth_listeners x) as [-> ->]
      end; done.
Qed.

Lemma handleMouseDown_refs (s : state) :
  sidebarRef (handleMouseDown s) = sidebarRef s
  ∧ navbarRef (handleMouseDown s) = navbarRef s
  ∧ isCollapsed (handleMouseDown s) = isCollapsed s
  ∧ isMobile (handleMouseDown s) = isMobile s.
Proof.
  unfold handleMouseDown, andThen, addEventListener, andThen.
  by repeat case_decide.
Qed.

End Frames.

(** ** The width invariant *)

Section WidthInvariant.

Lemma width_inv_frame (s s' : state) :
  sidebarRef s' = sidebarRef s →
  navbarRef s' = navbarRef s →
  isCollapsed s' = isCollapsed s →
  isMobile s' = isMobile s →
  width_inv s → width_inv s'.
Proof.
  unfold width_inv, width_shape, both_present, sidebar_width.
  by intros -> -> -> ->.
Qed.

Lemma collapse_width_inv (s : state) :
  both_present s = true → width_inv (collapse s).
Proof.
  intros Hbp. split; [by rewrite collapse_both_present|].
  destruct (both_present_inv s Hbp) as (sb & nb & Hsb & Hnb).
  destruct (collapse_width s sb nb Hsb Hnb) as [Hw Hc].
  exists "0". split; [done|]. by left.
Qed.

Lemma resetWidth_width_inv (s : state) :
  both_present s = true → width_inv (resetWidth s).
Proof.
  intros Hbp. split; [by rewrite resetWidth_both_present|].
  destruct (both_present_inv s Hbp) as (sb & nb & Hsb & Hnb).
  destruct (resetWidth_width s sb nb Hsb Hnb) as [Hw Hc].
  eexists. split; [exact Hw|]. unfold width_shape.
  rewrite resetWidth_isMobile. destruct (isMobile s); [by right; left|].
  by right; right.
Qed.

Lemma handleMouseMove_width_inv (e : MouseEvent) (s : state) :
  width_inv s → width_inv (handleMouseMove e s).
Proof.
  intros Hinv. destruct (isResizingRef s) eqn:Hr.
  - destruct Hinv as [Hbp _].
    destruct (both_present_inv s Hbp) as (sb & nb & Hsb & Hnb).
    rewrite (handleMouseMove_dragging s sb nb Hsb Hnb e Hr).
    split; [done|]. exists (Css.px (clamp (clientX e))). split.
    + unfold sidebar_width. simpl. apply lookup_insert_eq.
    + right; right. apply within_px, clamp_range.
  - unfold handleMouseMove. by rewrite Hr.
Qed.

Lemma invoke_width_inv (h : handler) (e : MouseEvent) (s : state) :
  width_inv s → width_inv (invoke h e s).
Proof.
  destruct h as [r|r]; simpl.
  - apply handleMouseMove_width_inv.
  - by apply width_inv_frame.
Qed.

Lemma rerender_width_inv (m : bool) (p : string) (s : state) :
  width_inv s → width_inv (rerender m p s).
Proof.
  intros Hinv.
  assert (Hbp : both_present (rendered m p s) = true) by apply Hinv.
  unfold rerender, andThen. fold (rendered m p s).
  destruct (bool_decide (m = isMobile s)) eqn:Hm; simpl.
  - apply bool_decide_eq_true_1 in Hm.
    assert (Hr : width_inv (rendered m p s)) by by apply (width_inv_frame s).
    unfold skip. rewrite orb_false_r.
    destruct (negb (bool_decide (p = pathname s))); [|done].
    unfold effect_pathname. destruct (isMobile (rendered m p s)); [|done].
    by apply collapse_width_inv.
  - rewrite orb_true_r. unfold effect_isMobile, effect_pathname.
    destruct (isMobile (rendered m p s)) eqn:Hm'.
    + rewrite collapse_isMobile, Hm'.
      apply collapse_width_inv. by rewrite collapse_both_present.
    + rewrite resetWidth_isMobile, Hm'. by apply resetWidth_width_inv.
Qed.

Lemma tick_width_inv (dt : nat) (s : state) :
  width_inv s → width_inv (tick dt s).
Proof.
  destruct (tick_shape dt s) as [b ->]. by apply width_inv_frame.
Qed.

Lemma mount_width_inv (m : bool) (p : string) : width_inv (mount m p).
Proof.
  destruct m.
  - rewrite mount_mobile. apply collapse_width_inv.
    by rewrite collapse_both_present.
  - rewrite mount_desktop. by apply resetWidth_width_inv.
Qed.

Lemma step_width_inv (ev : event) (s : state) :
  width_inv s → width_inv (step ev s).
Proof.
  intros Hinv. destruct ev as [|e|e| | |m p|dt]; simpl.
  - destruct (handleMouseDown_refs s) as (H1 & H2 & H3 & H4).
    by apply (width_inv_frame s).
  - apply (dispatch_preserves width_inv); [|done].
    intros h s'. apply invoke_width_inv.
  - apply (dispatch_preserves width_inv); [|done].
    intros h s'. apply invoke_width_inv.
  - apply collapse_width_inv, Hinv.
  - apply resetWidth_width_inv, Hinv.
  - by apply rerender_width_inv.
  - by apply tick_width_inv.
Qed.

Lemma reachable_width_inv (s : state) : reachable s → width_inv s.
Proof.
  induction 1 as [m p | ev s _ IH];
    [apply mount_width_inv | by apply step_width_inv].
Qed.

End WidthInvariant.

Lemma reachable_run (evs : list event) (s : state) :
  reachable s → reachable (run evs s).
Proof.
  revert s. induction evs as [|ev evs IH]; intros s Hs; [done|].
  simpl. apply IH. by constructor.
Qed.

Lemma reachable_inv_run (s : state) :
  reachable s → ∃ evs m p, s = run evs (mount m p).
Proof.
  induction 1 as [m p | ev s _ (evs & m & p & ->)].
  - by exists [], m, p.
  - exists (evs ++ [ev])%list, m, p. unfold run. by rewrite foldl_app.
Qed.

(** ** The drag invariant *)

Section DragInvariant.

Lemma drag_inv_frame (s s' : state) :
  listeners s' = listeners s →
  isResizingRef s' = isResizingRef s →
  drag_inv s → drag_inv s'.
Proof. unfold drag_inv, listeners_ok. by intros -> ->. Qed.

Lemma mount_idle (m : bool) (p : string) :
  listeners (mount m p) = [] ∧ isResizingRef (mount m p) = false.
Proof.
  destruct m.
  - rewrite mount_mobile.
    by repeat match goal with
      | |- context [listeners (collapse ?x)] =>
          destruct (collapse_listeners x) as [-> ->]
      end.
  - rewrite mount_desktop.
    by destruct (resetWidth_listeners
                   (set_navbarRef (Some (Element ∅))
                      (set_sidebarRef (Some (Element ∅)) (initial false p))))
      as [-> ->].
Qed.

Lemma mount_drag_inv (m : bool) (p : string) : drag_inv (mount m p).
Proof.
  destruct (mount_idle m p) as [Hl Hf]. unfold drag_inv, listeners_ok, paired.
  rewrite Hl, Hf. repeat split; try done.
  all: intros H; by apply not_elem_of_nil in H.
Qed.

Lemma handleMouseDown_drag_inv (s : state) :
  drag_inv s → drag_inv (handleMouseDown s).
Proof.
  intros [Hok _]. split; [by apply handleMouseDown_ok|].
  rewrite handleMouseDown_flag. split; [|done]. intros _ Hnil.
  assert (Hin : move_listener (render_id s) ∈ listeners (handleMouseDown s)).
  { apply handleMouseDown_listeners. right. by left. }
  rewrite Hnil in Hin. by apply not_elem_of_nil in Hin.
Qed.

Lemma step_drag_inv (ev : event) (s : state) :
  drag_inv s → drag_inv (step ev s).
Proof.
  intros Hinv. destruct ev as [|e|e| | |m p|dt]; simpl.
  - by apply handleMouseDown_drag_inv.
  - destruct (dispatch_mousemove_listeners e s) as [Hl Hf]; [apply Hinv|].
    by apply (drag_inv_frame s).
  - destruct (dispatch_mouseup_clears e s Hinv) as [Hl Hf].
    unfold drag_inv, listeners_ok, paired. rewrite Hl, Hf.
    repeat split; try done.
    all: intros H; by apply not_elem_of_nil in H.
  - destruct (collapse_listeners s) as [Hl Hf]. by apply (drag_inv_frame s).
  - destruct (resetWidth_listeners s) as [Hl Hf]. by apply (drag_inv_frame s).
  - destruct (rerender_listeners m p s) as [Hl Hf].
    by apply (drag_inv_frame s).
  - destruct (tick_shape dt s) as [b ->]. by apply (drag_inv_frame s).
Qed.

Lemma reachable_drag_inv (s : state) : reachable s → drag_inv s.
Proof.
  induction 1 as [m p | ev s _ IH];
    [apply mount_drag_inv | by apply step_drag_inv].
Qed.

(** Without a mouse down nothing is ever registered. *)
Lemma no_mousedown_no_listeners (evs : list event) (s : state) :
  listeners s = [] →
  MouseDown ∉ evs →
  listeners (run evs s) = [].
Proof.
  revert s. induction evs as [|ev evs IH]; intros s Hnil Hevs; [done|].
  simpl. apply IH; [|by apply not_elem_of_cons in Hevs as [_ ?]].
  apply not_elem_of_cons in Hevs as [Hev _].
  destruct ev as [|e|e| | |m p|dt]; simpl; [done| | | | | |].
  - unfold dispatch. by rewrite Hnil.
  - unfold dispatch. by rewrite Hnil.
  - by destruct (collapse_listeners s) as [-> _].
  - by destruct (resetWidth_listeners s) as [-> _].
  - by destruct (rerender_listeners m p s) as [-> _].
  - by destruct (tick_shape dt s) as [b ->].
Qed.

End DragInvariant.

(** ** A mouse move during a drag, seen from the document *)

Section DragMove.

Variables (e : MouseEvent) (s0 : state).

Lemma handleMouseMove_during (s : state) :
  during s0 s →
  during s0 (handleMouseMove e s) ∧ resized_to (clamp (clientX e)) (handleMouseMove e s).
Proof using Type.
  intros (Hl & Hr & Hbp).
  destruct (both_present_inv s Hbp) as (sb & nb & Hsb & Hnb).
  rewrite (handleMouseMove_dragging s sb nb Hsb Hnb e Hr).
  split; [done|].
  unfold resized_to, sidebar_width, navbar_left, navbar_width. simpl.
  rewrite !lookup_insert_eq, lookup_insert_ne by done.
  by rewrite lookup_insert_eq.
Qed.

Lemma dispatch_mousemove_resizes_fold
    (snap : list (string * handler)) (s : state) :
  Forall own_listener snap →
  (∀ l, l ∈ snap → l ∈ listeners s0) →
  during s0 s →
  let s' := foldl (dispatch_one "mousemove" e) s snap in
  during s0 s'
  ∧ ((∃ r, move_listener r ∈ snap) ∨ resized_to (clamp (clientX e)) s →
     resized_to (clamp (clientX e)) s').
Proof using Type.
  intros Hown. revert s.
  induction Hown as [|l snap [r [-> | ->]] _ IH]; intros s Hsub Hs; simpl.
  - split; [done|]. intros [[r Hr] | H]; [|done].
    by apply not_elem_of_nil in Hr.
  - assert (Hone : dispatch_one "mousemove" e s (move_listener r)
                   = handleMouseMove e s).
    { unfold dispatch_one, move_listener. simpl.
      destruct Hs as (-> & _ & _).
      rewrite bool_decide_eq_true_2; [done|].
      apply Hsub, list_elem_of_here. }
    rewrite Hone. destruct (handleMouseMove_during s Hs) as [Hd Hw].
    destruct (IH (handleMouseMove e s)) as [Hd' Hw']; [|done|].
    { intros l Hl. apply Hsub. by apply list_elem_of_further. }
    split; [done|]. intros _. apply Hw'. by right.
  - assert (Hone : dispatch_one "mousemove" e s (up_listener r) = s) by done.
    rewrite Hone. destruct (IH s) as [Hd' Hw']; [|done|].
    { intros l Hl. apply Hsub. by apply list_elem_of_further. }
    split; [done|]. intros [[r' Hr'] | H]; apply Hw'; [left | by right].
    apply elem_of_cons in Hr' as [Hr' | Hr']; [discriminate|]. by exists r'.
Qed.

End DragMove.

(** In a reachable state with the flag set, a mousemove event at the
    document reaches [handleMouseMove] and resizes to the clamped
    [clientX]. *)
Lemma mousemove_event_resizes (e : MouseEvent) (s : state) :
  reachable s →
  isResizingRef s = true →
  resized_to (clamp (clientX e)) (step (MouseMove e) s).
Proof.
  intros Hs Hr.
  destruct (reachable_drag_inv s Hs) as [[Hown Hpair] Hflag].
  destruct (reachable_width_inv s Hs) as [Hbp _].
  destruct (dispatch_mousemove_resizes_fold e s (listeners s) s Hown)
    as [_ Hw]; [done | done |].
  apply Hw. left.
  destruct (listeners s) as [|l ls] eqn:E; [by apply Hflag in Hr|].
  assert (Hl : l ∈ l :: ls) by apply list_elem_of_here.
  destruct (proj1 (Forall_forall _ _) Hown l Hl) as [r [-> | ->]].
  - by exists r.
  - exists r. by apply Hpair.
Qed.

(** C4: [handleMouseDown] sets the resizing flag and registers the mousemove
    and mouseup listeners of the current render; [handleMouseUp] clears the
    flag and removes the two listeners of its render.  In every reachable
    state the document holds listeners exactly while the flag is set, each
    mousemove listener together with the mouseup listener of the same
    render; after any mouse up none is left, and none is registered at
    mount or before the first mouse down. *)
Theorem C4_listeners_scoped_to_drag :
  (∀ s, isResizingRef (handleMouseDown s) = true
        ∧ move_listener (render_id s) ∈ listeners (handleMouseDown s)
        ∧ up_listener (render_id s) ∈ listeners (handleMouseDown s))
  ∧ (∀ r s, isResizingRef (handleMouseUp r s) = false
            ∧ (move_listener r ∉ listeners (handleMouseUp r s))
            ∧ (up_listener r ∉ listeners (handleMouseUp r s)))
  ∧ (∀ s, reachable s →
          (isResizingRef s = false ↔ listeners s = [])
          ∧ Forall own_listener (listeners s)
          ∧ paired (listeners s)
          ∧ (∀ e, listeners (step (MouseUp e) s) = []
                  ∧ isResizingRef (step (MouseUp e) s) = false))
  ∧ (∀ m p evs, listeners (mount m p) = []
                ∧ isResizingRef (mount m p) = false
                ∧ (MouseDown ∉ evs → listeners (run evs (mount m p)) = [])).
Proof.
  split; [|split; [|split]].
  - intros s. split; [apply handleMouseDown_flag|].
    rewrite !handleMouseDown_listeners. split; [right; by left | right; by right].
  - intros r s. split; [done|].
    rewrite !handleMouseUp_listeners. naive_solver.
  - intros s Hs. pose proof (reachable_drag_inv s Hs) as Hinv.
    destruct Hinv as [[Hown Hpair] Hflag].
    split; [|split; [done|split; [done|]]].
    + split.
      * intros Hf. destruct (listeners s) as [|l ls] eqn:E; [done|].
        assert (isResizingRef s = true) by by apply Hflag. congruence.
      * intros Hnil. destruct (isResizingRef s) eqn:E; [|done].
        exfalso. by apply Hflag.
    + intros e. apply dispatch_mouseup_clears. by apply reachable_drag_inv.
  - intros m p evs. destruct (mount_idle m p) as [Hl Hf].
    repeat split; [done | done |]. by apply no_mousedown_no_listeners.
Qed.

Lemma C4_witness :
  reachable (step MouseDown desktop)
  ∧ listeners (step (MouseUp {| clientX := 300 |}) (step MouseDown desktop)) = []
  ∧ isResizingRef (step (MouseUp {| clientX := 300 |}) (step MouseDown desktop))
    = false
  ∧ listeners (run [ClickCollapse; Tick 300; Render true "/"] desktop) = [].
Proof.
  pose proof (reach_step MouseDown _ (reach_mount false "/documents")) as Hr.
  destruct C4_listeners_scoped_to_drag as (_ & _ & Hreach & Hmount).
  destruct (Hreach _ Hr) as (_ & _ & _ & Hup).
  destruct (Hup {| clientX := 300 |}) as [H1 H2].
  destruct (Hmount false "/documents" [ClickCollapse; Tick 300; Render true "/"])
    as (_ & _ & H3).
  split; [exact Hr|]. split; [exact H1|]. split; [exact H2|].
  apply H3. intros H.
  repeat (apply elem_of_cons in H as [H | H]; [discriminate|]).
  by apply not_elem_of_nil in H.
Defined.

(** ** The range of the sidebar width *)

(** C5, as stated, fails: collapsing a desktop sidebar leaves the width at
    0, outside [240, 480]; and expanding on a phone leaves it at 100%, which
    is no fixed number of pixels, so no range [lo, hi] holds it. *)
Lemma C5_counterexample :
  reachable (step ClickCollapse desktop)
  ∧ sidebar_width (step ClickCollapse desktop) = Some "0"
  ∧ ¬ width_within 240 480 (step ClickCollapse desktop)
  ∧ reachable (step ClickResetWidth phone)
  ∧ sidebar_width (step ClickResetWidth phone) = Some "100%"
  ∧ ¬ (∃ lo hi, width_within lo hi (step ClickResetWidth phone)).
Proof.
  assert (H0 : sidebar_width (step ClickCollapse desktop) = Some "0")
    by (vm_compute; reflexivity).
  assert (H1 : sidebar_width (step ClickResetWidth phone) = Some "100%")
    by (vm_compute; reflexivity).
  split; [apply reach_step, reach_mount|]. split; [exact H0|]. split.
  { intros (v & Hv & Hin). rewrite H0 in Hv. injection Hv as <-.
    vm_compute in Hin. discriminate. }
  split; [apply reach_step, reach_mount|]. split; [exact H1|].
  intros (lo & hi & v & Hv & Hin). rewrite H1 in Hv. injection Hv as <-.
  unfold Css.within in Hin.
  change (Css.pixels "100%") with (@None Z) in Hin. discriminate.
Qed.

(** C5 (amended): in every reachable state both elements are present and
    the sidebar's inline width is a pixel value within [240, 480], except
    that it is 0 while the sidebar is collapsed and 100% while it is
    expanded on a mobile layout.  A mouse move handled during a drag always
    leaves it within [240, 480]. *)
Theorem C5_width_stays_in_shape (s : state) :
  reachable s →
  both_present s = true
  ∧ (∃ v, sidebar_width s = Some v
          ∧ ((v = "0" ∧ isCollapsed s = true)
             ∨ (v = "100%" ∧ isMobile s = true)
             ∨ (∃ n, Css.pixels v = Some n ∧ 240 ≤ n ≤ 480)))
  ∧ (∀ e, isResizingRef s = true → width_within 240 480 (handleMouseMove e s)).
Proof.
  intros Hs. destruct (reachable_width_inv s Hs) as (Hbp & v & Hv & Hshape).
  split; [done|]. split.
  - exists v. split; [done|].
    destruct Hshape as [H | [H | H]]; [by left | by right; left |].
    right; right. unfold Css.within in H.
    destruct (Css.pixels v) as [n|]; [|done]. exists n. split; [done|lia].
  - intros e Hr. destruct (both_present_inv s Hbp) as (sb & nb & Hsb & Hnb).
    rewrite (handleMouseMove_dragging s sb nb Hsb Hnb e Hr).
    exists (Css.px (clamp (clientX e))). split.
    + unfold sidebar_width. simpl. apply lookup_insert_eq.
    + apply within_px, clamp_range.
Qed.

Lemma C5_witness :
  reachable (run [MouseDown; MouseMove {| clientX := 1000 |}] desktop)
  ∧ ∃ v, sidebar_width (run [MouseDown; MouseMove {| clientX := 1000 |}] desktop)
         = Some v
         ∧ ((v = "0"
             ∧ isCollapsed (run [MouseDown; MouseMove {| clientX := 1000 |}] desktop)
               = true)
            ∨ (v = "100%"
               ∧ isMobile (run [MouseDown; MouseMove {| clientX := 1000 |}] desktop)
                 = true)
            ∨ (∃ n, Css.pixels v = Some n ∧ 240 ≤ n ≤ 480)).
Proof.
  assert (Hr : reachable (run [MouseDown; MouseMove {| clientX := 1000 |}] desktop))
    by apply reachable_run, reach_mount.
  split; [exact Hr|].
  exact (proj1 (proj2 (C5_width_stays_in_shape _ Hr))).
Defined.

(** ** Outward calls *)

Section Calls.

Lemma calls_extend_refl (s s' : state) :
  calls s' = calls s → calls_extend s s'.
Proof. intros H. exists []. by rewrite app_nil_r. Qed.

Lemma calls_extend_trans (s1 s2 s3 : state) :
  calls_extend s1 s2 → calls_extend s2 s3 → calls_extend s1 s3.
Proof.
  intros (d1 & E1 & H1) (d2 & E2 & H2). exists (d1 ++ d2)%list.
  split; [by rewrite E2, E1, app_assoc | by apply Forall_app].
Qed.

Lemma collapse_calls (s : state) : calls_extend s (collapse s).
Proof.
  unfold collapse. destruct (both_present s); [|by apply calls_extend_refl].
  exists [SetTimeout (SetIsResetting false) 300]. split; [done|].
  by repeat constructor.
Qed.

Lemma resetWidth_calls (s : state) : calls_extend s (resetWidth s).
Proof.
  unfold resetWidth. destruct (both_present s); [|by apply calls_extend_refl].
  exists [SetTimeout (SetIsResetting false) 300]. split; [done|].
  by repeat constructor.
Qed.

Lemma handleMouseDown_calls (s : state) : calls_extend s (handleMouseDown s).
Proof.
  exists [PreventDefault; StopPropagation;
          AddEventListener "mousemove" (HandleMouseMove (render_id s));
          AddEventListener "mouseup" (HandleMouseUp (render_id s))].
  split; [|by repeat constructor].
  unfold handleMouseDown, andThen, addEventListener, andThen.
  repeat case_decide; simpl; by rewrite <- !app_assoc.
Qed.

Lemma invoke_calls (h : handler) (e : MouseEvent) (s : state) :
  calls_extend s (invoke h e s).
Proof.
  destruct h as [r|r]; simpl.
  - apply calls_extend_refl. unfold handleMouseMove.
    by destruct (isResizingRef s), (both_present s).
  - exists [RemoveEventListener "mousemove" (HandleMouseMove r);
            RemoveEventListener "mouseup" (HandleMouseUp r)].
    split; [|by repeat constructor].
    unfold handleMouseUp, andThen, removeEventListener, andThen. simpl.
    by rewrite <- !app_assoc.
Qed.

Lemma dispatch_calls (type : string) (e : MouseEvent) (s : state) :
  calls_extend s (dispatch type e s).
Proof.
  apply (dispatch_preserves (calls_extend s)); [|by apply calls_extend_refl].
  intros h s' Hs'. eapply calls_extend_trans; [exact Hs'|]. apply invoke_calls.
Qed.

Lemma rendered_calls (m : bool) (p : string) (s : state) :
  calls_extend s (rendered m p s).
Proof. exists Navigation_hooks. split; [done | by repeat constructor]. Qed.

Lemma effect_isMobile_calls (s : state) : calls_extend s (effect_isMobile s).
Proof.
  unfold effect_isMobile.
  destruct (isMobile s); [apply collapse_calls | apply resetWidth_calls].
Qed.

Lemma effect_pathname_calls (s : state) : calls_extend s (effect_pathname s).
Proof.
  unfold effect_pathname.
  destruct (isMobile s); [apply collapse_calls | by apply calls_extend_refl].
Qed.

Lemma rerender_calls (m : bool) (p : string) (s : state) :
  calls_extend s (rerender m p s).
Proof.
  unfold rerender, andThen. fold (rendered m p s).
  set (mobile_changed := negb (bool_decide (m = isMobile s))).
  set (path_changed := negb (bool_decide (p = pathname s))).
  apply (calls_extend_trans _ (rendered m p s)); [apply rendered_calls|].
  apply (calls_extend_trans _
           ((if mobile_changed then effect_isMobile else skip) (rendered m p s))).
  - destruct mobile_changed;
      [apply effect_isMobile_calls | by apply calls_extend_refl].
  - destruct (path_changed || mobile_changed);
      [apply effect_pathname_calls | by apply calls_extend_refl].
Qed.

Lemma step_calls (ev : event) (s : state) : calls_extend s (step ev s).
Proof.
  destruct ev as [|e|e| | |m p|dt]; simpl.
  - apply handleMouseDown_calls.
  - apply dispatch_calls.
  - apply dispatch_calls.
  - apply collapse_calls.
  - apply resetWidth_calls.
  - apply rerender_calls.
  - apply calls_extend_refl. by destruct (tick_shape dt s) as [b ->].
Qed.

Lemma mount_calls (m : bool) (p : string) :
  calls_extend (initial m p) (mount m p).
Proof.
  destruct m.
  - rewrite mount_mobile.
    eapply calls_extend_trans; [|apply collapse_calls].
    eapply calls_extend_trans; [|apply collapse_calls].
    by apply calls_extend_refl.
  - rewrite mount_desktop.
    eapply calls_extend_trans; [|apply resetWidth_calls].
    by apply calls_extend_refl.
Qed.

(** Every log starts with the hooks of the first render and holds only
    expected calls. *)
Lemma reachable_calls (s : state) :
  reachable s →
  ∃ d, calls s = (Navigation_hooks ++ d)%list
       ∧ Forall (λ c, expected_call c = true) d.
Proof.
  induction 1 as [m p | ev s _ (d & E & Hd)].
  - apply (mount_calls m p).
  - destruct (step_calls ev s) as (d' & E' & Hd').
    exists (d ++ d')%list. split; [by rewrite E', E, app_assoc|].
    by apply Forall_app.
Qed.

Lemma reachable_calls_expected (s : state) (c : outcall) :
  reachable s → c ∈ calls s → expected_call c = true.
Proof.
  intros Hs Hc. destruct (reachable_calls s Hs) as (d & E & Hd).
  rewrite E in Hc. apply elem_of_app in Hc as [Hc | Hc].
  - revert Hc. unfold Navigation_hooks. rewrite !elem_of_cons.
    intros [-> | [-> | [-> | [-> | Hc]]]]; try done.
    by apply not_elem_of_nil in Hc.
  - by apply (proj1 (Forall_forall _ _) Hd).
Qed.

End Calls.

(** C8, as stated, fails: no execution performs the data-mutation call.
    The hook is imported (line 15) and never called. *)
Lemma C8_counterexample :
  ¬ (∃ evs m p fn, UseMutation fn ∈ calls (run evs (mount m p))).
Proof.
  intros (evs & m & p & fn & Hin).
  assert (Hr : reachable (run evs (mount m p))) by apply reachable_run, reach_mount.
  pose proof (reachable_calls_expected _ _ Hr Hin) as H. discriminate.
Qed.

(** C8 (amended): in every reachable state the outward calls made so far
    are calls of [useRouter], [useParams], [usePathname] and
    [useMediaQuery('(max-width: 768px)')], of [preventDefault] and
    [stopPropagation] on the mouse-down event, of [addEventListener] and
    [removeEventListener] for the two drag listeners, and of [setTimeout]
    with 300 ms; the path observer and the breakpoint query have been
    called, and neither the data mutation nor a toast ever is. *)
Theorem C8_outward_calls (s : state) :
  reachable s →
  (∀ c, c ∈ calls s → expected_call c = true)
  ∧ UsePathname ∈ calls s
  ∧ UseMediaQuery "(max-width: 768px)" ∈ calls s
  ∧ (∀ fn, UseMutation fn ∉ calls s)
  ∧ (∀ msg, Toast msg ∉ calls s).
Proof.
  intros Hs. split; [|split; [|split; [|split]]].
  - intros c. by apply reachable_calls_expected.
  - destruct (reachable_calls s Hs) as (d & -> & _).
    apply elem_of_app. left. unfold Navigation_hooks. set_solver.
  - destruct (reachable_calls s Hs) as (d & -> & _).
    apply elem_of_app. left. unfold Navigation_hooks. set_solver.
  - intros fn Hin. by pose proof (reachable_calls_expected _ _ Hs Hin).
  - intros msg Hin. by pose proof (reachable_calls_expected _ _ Hs Hin).
Qed.

Lemma C8_witness :
  reachable (run [MouseDown; MouseUp {| clientX := 300 |}; ClickCollapse] phone)
  ∧ UsePathname
    ∈ calls (run [MouseDown; MouseUp {| clientX := 300 |}; ClickCollapse] phone)
  ∧ (∀ fn, UseMutation fn
           ∉ calls (run [MouseDown; MouseUp {| clientX := 300 |}; ClickCollapse]
                      phone)).
Proof.
  assert (Hr : reachable
                 (run [MouseDown; MouseUp {| clientX := 300 |}; ClickCollapse] phone))
    by apply reachable_run, reach_mount.
  destruct (C8_outward_calls _ Hr) as (_ & H1 & _ & H2 & _).
  split; [exact Hr|]. split; [exact H1 | exact H2].
Defined.

(** A drag to 300 pixels, end to end. *)
Example drag_300 :
  let s := run [MouseDown; MouseMove {| clientX := 300 |}] (mount false "/") in
  sidebar_width s = Some "300px" ∧ navbar_left s = Some "300px"
  ∧ navbar_width s = Some "calc(100% - 300px)".
Proof. vm_compute. done. Qed.

(** * Further properties of the component *)

(** ** Invariants of the two elements

    A property [P] of the two refs holds in every reachable state when
    [collapse] and [resetWidth] establish it and a handled mouse move keeps
    it.  The two may rely on a weaker property [I] that already holds of
    the freshly attached elements. *)
Section LayoutInvariant.

Variables P I : state → Prop.

Hypothesis P_frame : ∀ s s',
  sidebarRef s' = sidebarRef s → navbarRef s' = navbarRef s → P s → P s'.
Hypothesis P_weaken : ∀ s, P s → I s.
Hypothesis I_attached : ∀ m p,
  I (set_navbarRef (Some (Element ∅))
       (set_sidebarRef (Some (Element ∅)) (initial m p))).
Hypothesis P_collapse : ∀ s, both_present s = true → I s → P (collapse s).
Hypothesis P_resetWidth : ∀ s, both_present s = true → I s → P (resetWidth s).
Hypothesis P_move : ∀ e s, P s → P (handleMouseMove e s).

Lemma layout_effect_isMobile (s : state) :
  both_present s = true → I s → P (effect_isMobile s).
Proof using P_collapse P_resetWidth.
  intros Hbp HI. unfold effect_isMobile.
  destruct (isMobile s); [by apply P_collapse | by apply P_resetWidth].
Qed.

Lemma layout_effect_pathname (s : state) :
  P s → both_present s = true → P (effect_pathname s).
Proof using P_collapse P_weaken.
  intros HP Hbp. unfold effect_pathname.
  destruct (isMobile s); [|done]. apply P_collapse; [done|]. by apply P_weaken.
Qed.

Lemma effect_isMobile_both_present (s : state) :
  both_present (effect_isMobile s) = both_present s.
Proof using Type.
  unfold effect_isMobile.
  destruct (isMobile s);
    [apply collapse_both_present | apply resetWidth_both_present].
Qed.

Lemma layout_rerender (m : bool) (p : string) (s : state) :
  both_present s = true → P s → P (rerender m p s).
Proof using P_frame P_weaken P_collapse P_resetWidth.
  intros Hbp HP.
  assert (Hbp' : both_present (rendered m p s) = true) by done.
  assert (HP' : P (rendered m p s)) by by apply (P_frame s).
  unfold rerender, andThen. fold (rendered m p s).
  destruct (negb (bool_decide (m = isMobile s))); simpl.
  - rewrite orb_true_r. apply layout_effect_pathname.
    + apply layout_effect_isMobile; [done|]. by apply P_weaken.
    + by rewrite effect_isMobile_both_present.
  - rewrite orb_false_r. unfold skip.
    destruct (negb (bool_decide (p = pathname s))); [|done].
    by apply layout_effect_pathname.
Qed.

Lemma layout_mount (m : bool) (p : string) : P (mount m p).
Proof using P_weaken I_attached P_collapse P_resetWidth.
  destruct m.
  - rewrite mount_mobile. apply P_collapse.
    + by rewrite collapse_both_present.
    + apply P_weaken, P_collapse; [done | apply I_attached].
  - rewrite mount_desktop. apply P_resetWidth; [done | apply I_attached].
Qed.

Lemma layout_step (ev : event) (s : state) :
  both_present s = true → P s → P (step ev s).
Proof using P_frame P_weaken P_collapse P_resetWidth P_move.
  intros Hbp HP. destruct ev as [|e|e| | |m p|dt]; simpl.
  - destruct (handleMouseDown_refs s) as (H1 & H2 & _). by apply (P_frame s).
  - apply (dispatch_preserves P); [|done].
    intros [r|r] s' Hs'; simpl; [by apply P_move | by apply (P_frame s')].
  - apply (dispatch_preserves P); [|done].
    intros [r|r] s' Hs'; simpl; [by apply P_move | by apply (P_frame s')].
  - apply P_collapse; [done | by apply P_weaken].
  - apply P_resetWidth; [done | by apply P_weaken].
  - by apply layout_rerender.
  - destruct (tick_shape dt s) as [b ->]. by apply (P_frame s).
Qed.

Lemma reachable_layout (s : state) : reachable s → P s.
Proof using P_frame P_weaken I_attached P_collapse P_resetWidth P_move.
  induction 1 as [m p | ev s Hs IH]; [apply layout_mount|].
  apply layout_step; [|done]. by apply reachable_width_inv.
Qed.

End LayoutInvariant.

Section Complement.

Lemma navbar_complements_frame (s s' : state) :
  sidebarRef s' = sidebarRef s → navbarRef s' = navbarRef s →
  navbar_complements s → navbar_complements s'.
Proof.
  unfold navbar_complements, resized_to, reads_as, sidebar_width, navbar_left,
    navbar_width.
  by intros -> ->.
Qed.

(** What was written with the printers reads back as the same number. *)
Lemma resized_reads (w : Z) (s : state) : resized_to w s → reads_as w s.
Proof.
  intros (H1 & H2 & H3). unfold reads_as. rewrite H1, H2, H3. simpl.
  by rewrite !pixels_px, subtracted_calc_rest.
Qed.

Lemma collapse_complements (s : state) :
  both_present s = true → navbar_complements (collapse s).
Proof.
  intros Hbp. destruct (both_present_inv s Hbp) as (sb & nb & Hsb & Hnb).
  left. rewrite (collapse_present s sb nb Hsb Hnb).
  unfold sidebar_width, navbar_left, navbar_width. simpl.
  rewrite !lookup_insert_eq, lookup_insert_ne by done.
  by rewrite lookup_insert_eq.
Qed.

Lemma resetWidth_complements (s : state) :
  both_present s = true → navbar_complements (resetWidth s).
Proof.
  intros Hbp. destruct (both_present_inv s Hbp) as (sb & nb & Hsb & Hnb).
  assert (Hlayout :
    sidebar_width (resetWidth s) = Some (if isMobile s then "100%" else "240px")
    ∧ navbar_left (resetWidth s) = Some (if isMobile s then "100%" else "240px")
    ∧ navbar_width (resetWidth s)
      = Some (if isMobile s then "0" else "calc(100% - 240px)")).
  { rewrite (resetWidth_present s sb nb Hsb Hnb).
    unfold sidebar_width, navbar_left, navbar_width. simpl.
    rewrite !lookup_insert_eq, lookup_insert_ne by done.
    by rewrite lookup_insert_eq. }
  destruct (isMobile s); [by right; left|].
  right; right. exists 240. split; [lia|].
  assert (Hres : resized_to 240 (resetWidth s)) by exact Hlayout.
  split; [exact Hres | by apply resized_reads].
Qed.

Lemma handleMouseMove_complements (e : MouseEvent) (s : state) :
  navbar_complements s → navbar_complements (handleMouseMove e s).
Proof.
  intros HP. destruct (isResizingRef s) eqn:Hr;
    [|unfold handleMouseMove; by rewrite Hr].
  destruct (both_present s) eqn:Hbp;
    [|unfold handleMouseMove; by rewrite Hr, Hbp].
  right; right. exists (clamp (clientX e)). split; [apply clamp_range|].
  assert (Hres : resized_to (clamp (clientX e)) (handleMouseMove e s))
    by by apply (handleMouseMove_during e s s).
  split; [exact Hres | by apply resized_reads].
Qed.

End Complement.

(** X1: in every reachable state the navbar's inline [left] and [width]
    complement the sidebar's inline width: 0 and 100% beside a collapsed
    sidebar, 100% and 0 beside one expanded on a phone, and [w px] and
    [calc(100% - w px)] beside one of [w] pixels, 240 <= w <= 480, where
    the three values also read back as [w] pixels, [w] pixels and 100%
    less [w] pixels. *)
Theorem X1_navbar_complements_sidebar (s : state) :
  reachable s → navbar_complements s.
Proof.
  apply (reachable_layout navbar_complements (λ _, True)).
  - apply navbar_complements_frame.
  - done.
  - done.
  - intros s' Hbp _. by apply collapse_complements.
  - intros s' Hbp _. by apply resetWidth_complements.
  - apply handleMouseMove_complements.
Qed.

Lemma X1_witness :
  reachable (run [ClickCollapse; MouseDown; MouseMove {| clientX := 333 |}] desktop)
  ∧ layout (run [ClickCollapse; MouseDown; MouseMove {| clientX := 333 |}] desktop)
    = (Some "333px", Some "333px", Some "calc(100% - 333px)")
  ∧ reads_as 333
      (run [ClickCollapse; MouseDown; MouseMove {| clientX := 333 |}] desktop)
  ∧ navbar_complements
      (run [ClickCollapse; MouseDown; MouseMove {| clientX := 333 |}] desktop).
Proof.
  assert (Hr : reachable
                 (run [ClickCollapse; MouseDown; MouseMove {| clientX := 333 |}]
                    desktop))
    by apply reachable_run, reach_mount.
  split; [exact Hr|]. split; [vm_compute; reflexivity|].
  split; [repeat split; vm_compute; reflexivity|].
  exact (X1_navbar_complements_sidebar _ Hr).
Defined.

Section Declared.

Lemma declared_exactly_at_most (s : state) :
  declared_exactly s → declared_at_most s.
Proof.
  unfold declared_exactly, declared_at_most, declared.
  destruct (sidebarRef s) as [sb|], (navbarRef s) as [nb|]; try done.
  intros [= H1 H2]. exists sb, nb. by rewrite H1, H2.
Qed.

Lemma collapse_declared (s : state) :
  declared_at_most s → declared_exactly (collapse s).
Proof.
  intros (sb & nb & Hsb & Hnb & Hdsb & Hdnb).
  unfold declared_exactly, declared.
  rewrite (collapse_present s sb nb Hsb Hnb). simpl.
  rewrite !dom_insert_L. f_equal. f_equal; set_solver.
Qed.

Lemma resetWidth_declared (s : state) :
  declared_at_most s → declared_exactly (resetWidth s).
Proof.
  intros (sb & nb & Hsb & Hnb & Hdsb & Hdnb).
  unfold declared_exactly, declared.
  rewrite (resetWidth_present s sb nb Hsb Hnb). simpl.
  rewrite !dom_insert_L. f_equal. f_equal; set_solver.
Qed.

Lemma handleMouseMove_declared (e : MouseEvent) (s : state) :
  declared_exactly s → declared_exactly (handleMouseMove e s).
Proof.
  intros HP. destruct (isResizingRef s) eqn:Hr;
    [|unfold handleMouseMove; by rewrite Hr].
  destruct (declared_exactly_at_most s HP)
    as (sb & nb & Hsb & Hnb & Hdsb & Hdnb).
  unfold declared_exactly, declared.
  rewrite (handleMouseMove_dragging s sb nb Hsb Hnb e Hr). simpl.
  rewrite !dom_insert_L. f_equal. f_equal; set_solver.
Qed.

Lemma reachable_declared (s : state) : reachable s → declared_exactly s.
Proof.
  apply (reachable_layout declared_exactly declared_at_most).
  - unfold declared_exactly, declared. by intros s1 s2 -> ->.
  - apply declared_exactly_at_most.
  - intros m p. exists (Element ∅), (Element ∅). simpl.
    rewrite dom_empty_L. set_solver.
  - intros s' _. apply collapse_declared.
  - intros s' _. apply resetWidth_declared.
  - apply handleMouseMove_declared.
Qed.

End Declared.

(** X2: the component never declares an inline property other than
    [width] on the sidebar and [left] and [width] on the navbar: in every
    reachable state these are exactly the declared properties. *)
Theorem X2_declared_properties (s : state) :
  reachable s → declared s = Some ({["width"]}, {["left"; "width"]}).
Proof. apply reachable_declared. Qed.

Lemma X2_witness :
  reachable (run [MouseDown; MouseMove {| clientX := 50 |}; ClickCollapse] phone)
  ∧ declared (run [MouseDown; MouseMove {| clientX := 50 |}; ClickCollapse] phone)
    = Some ({["width"]}, {["left"; "width"]}).
Proof.
  assert (Hr : reachable
                 (run [MouseDown; MouseMove {| clientX := 50 |}; ClickCollapse]
                    phone))
    by apply reachable_run, reach_mount.
  split; [exact Hr | exact (X2_declared_properties _ Hr)].
Defined.

(** ** Mouse moves compose *)

Lemma handleMouseMove_dragging_refs (e : MouseEvent) (s : state)
    (sb nb : element) :
  isResizingRef s = true →
  sidebarRef s = Some sb →
  navbarRef s = Some nb →
  isResizingRef (handleMouseMove e s) = true
  ∧ sidebarRef (handleMouseMove e s)
    = Some (setProperty "width" (Css.px (clamp (clientX e))) sb)
  ∧ navbarRef (handleMouseMove e s)
    = Some (setProperty "width" (Css.calc_rest (clamp (clientX e)))
              (setProperty "left" (Css.px (clamp (clientX e))) nb)).
Proof.
  intros Hr Hsb Hnb. by rewrite (handleMouseMove_dragging s sb nb Hsb Hnb e Hr).
Qed.

(** X3: of two mouse moves handled in a row only the second counts: the
    state is the one the second alone would have left.  In particular
    handling the same move twice is the same as handling it once. *)
Theorem X3_last_mouse_move_wins (e1 e2 : MouseEvent) (s : state) :
  handleMouseMove e2 (handleMouseMove e1 s) = handleMouseMove e2 s
  ∧ handleMouseMove e1 (handleMouseMove e1 s) = handleMouseMove e1 s.
Proof.
  assert (H : ∀ a b, handleMouseMove b (handleMouseMove a s) = handleMouseMove b s);
    [|by split].
  intros a b. destruct (isResizingRef s) eqn:Hr;
    [|assert (E : handleMouseMove a s = s)
        by (unfold handleMouseMove; by rewrite Hr);
      by rewrite E].
  destruct (both_present s) eqn:Hbp.
  2:{ assert (E : handleMouseMove a s = s)
        by (unfold handleMouseMove; by rewrite Hr, Hbp).
      by rewrite E. }
  destruct (both_present_inv s Hbp) as (sb & nb & Hsb & Hnb).
  destruct (handleMouseMove_dragging_refs a s sb nb Hr Hsb Hnb)
    as (Hr' & Hsb' & Hnb').
  rewrite (handleMouseMove_dragging _ _ _ Hsb' Hnb' b Hr').
  rewrite (handleMouseMove_dragging s sb nb Hsb Hnb b Hr).
  rewrite (handleMouseMove_dragging s sb nb Hsb Hnb a Hr).
  unfold set_navbarRef, set_sidebarRef, setProperty. simpl.
  f_equal; f_equal; f_equal; apply map_eq; intros k;
    rewrite !lookup_insert; by repeat case_decide.
Qed.

(** ** Mouse events outside and around a drag *)

(** X4: in a reachable state whose resizing flag is false, a mousemove or
    a mouseup at the document changes nothing at all: no listener is left
    to receive it. *)
Theorem X4_idle_mouse_events_change_nothing (s : state) (e : MouseEvent) :
  reachable s →
  isResizingRef s = false →
  step (MouseMove e) s = s ∧ step (MouseUp e) s = s.
Proof.
  intros Hs Hr. destruct (reachable_drag_inv s Hs) as [_ Hflag].
  assert (Hnil : listeners s = []).
  { destruct (listeners s) as [|l ls] eqn:E; [done|].
    assert (isResizingRef s = true) by by apply Hflag. congruence. }
  simpl. unfold dispatch. by rewrite Hnil.
Qed.

Lemma X4_witness :
  reachable (step ClickCollapse desktop)
  ∧ isResizingRef (step ClickCollapse desktop) = false
  ∧ step (MouseMove {| clientX := 400 |}) (step ClickCollapse desktop)
    = step ClickCollapse desktop
  ∧ step (MouseUp {| clientX := 400 |}) (step ClickCollapse desktop)
    = step ClickCollapse desktop.
Proof.
  assert (Hr : reachable (step ClickCollapse desktop))
    by exact (reach_step ClickCollapse desktop (reach_mount false "/documents")).
  assert (Hf : isResizingRef (step ClickCollapse desktop) = false)
    by (vm_compute; reflexivity).
  destruct (X4_idle_mouse_events_change_nothing
              (step ClickCollapse desktop) {| clientX := 400 |} Hr Hf)
    as [H1 H2].
  split; [exact Hr|]. split; [exact Hf|]. split; [exact H1 | exact H2].
Defined.

Lemma mouse_step_transition (ev : event) (s : state) :
  mouse_event ev = true →
  isCollapsed (step ev s) = isCollapsed s
  ∧ isResetting (step ev s) = isResetting s
  ∧ timers (step ev s) = timers s.
Proof.
  destruct ev as [|e|e| | |m p|dt]; try done; intros _; simpl.
  - destruct (handleMouseDown_transition s) as (H1 & H2 & H3). by rewrite H1, H2, H3.
  - destruct (dispatch_transition "mousemove" e s) as (H1 & H2 & H3).
    by rewrite H1, H2, H3.
  - destruct (dispatch_transition "mouseup" e s) as (H1 & H2 & H3).
    by rewrite H1, H2, H3.
Qed.

(** X5: no sequence of mouse events, however long, changes the collapsed
    flag, the transition flag or the pending timeouts; so whether the menu
    icon is rendered is not affected by dragging. *)
Theorem X5_drag_keeps_flags_and_timers (evs : list event) (s : state) :
  forallb mouse_event evs = true →
  isCollapsed (run evs s) = isCollapsed s
  ∧ isResetting (run evs s) = isResetting s
  ∧ timers (run evs s) = timers s
  ∧ menuIcon_rendered (run evs s) = menuIcon_rendered s.
Proof.
  revert s. induction evs as [|ev evs IH]; intros s Hevs; [done|].
  simpl in Hevs. apply andb_prop in Hevs as [Hev Hevs].
  destruct (mouse_step_transition ev s Hev) as (H1 & H2 & H3).
  destruct (IH (step ev s) Hevs) as (I1 & I2 & I3 & I4).
  unfold menuIcon_rendered in *. simpl.
  by rewrite I1, I2, I3, H1, H2, H3.
Qed.

Lemma X5_witness :
  forallb mouse_event
    [MouseDown; MouseMove {| clientX := 300 |}; MouseUp {| clientX := 300 |}]
  = true
  ∧ isCollapsed
      (run [MouseDown; MouseMove {| clientX := 300 |}; MouseUp {| clientX := 300 |}]
         (step ClickCollapse desktop))
    = isCollapsed (step ClickCollapse desktop)
  ∧ timers
      (run [MouseDown; MouseMove {| clientX := 300 |}; MouseUp {| clientX := 300 |}]
         (step ClickCollapse desktop))
    = timers (step ClickCollapse desktop).
Proof.
  assert (H : forallb mouse_event
                [MouseDown; MouseMove {| clientX := 300 |};
                 MouseUp {| clientX := 300 |}] = true) by reflexivity.
  destruct (X5_drag_keeps_flags_and_timers _ (step ClickCollapse desktop) H)
    as (H1 & _ & H3 & _).
  split; [exact H|]. split; [exact H1 | exact H3].
Defined.

Lemma dispatch_mouseup_refs_fold (e : MouseEvent)
    (snap : list (string * handler)) (s : state) :
  Forall own_listener snap →
  let s' := foldl (dispatch_one "mouseup" e) s snap in
  sidebarRef s' = sidebarRef s ∧ navbarRef s' = navbarRef s.
Proof.
  intros Hsnap. revert s.
  induction Hsnap as [|l snap [r [-> | ->]] _ IH]; intros s; [done| |].
  - simpl. apply IH.
  - simpl. destruct (IH (dispatch_one "mouseup" e s (up_listener r)))
      as [-> ->].
    unfold dispatch_one. by case_match.
Qed.

Lemma dispatch_isMobile (type : string) (e : MouseEvent) (s : state) :
  isMobile (dispatch type e s) = isMobile s.
Proof.
  apply (dispatch_preserves (λ s', isMobile s' = isMobile s)); [|done].
  intros [r|r] s' Hs'; simpl; [|done].
  unfold handleMouseMove. by destruct (isResizingRef s'), (both_present s').
Qed.

Lemma resetWidth_layout (s : state) :
  both_present s = true →
  layout (resetWidth s)
  = (if isMobile s
     then (Some "100%", Some "100%", Some "0")
     else (Some "240px", Some "240px", Some "calc(100% - 240px)")).
Proof.
  intros Hbp. destruct (both_present_inv s Hbp) as (sb & nb & Hsb & Hnb).
  rewrite (resetWidth_present s sb nb Hsb Hnb).
  unfold layout, sidebar_width, navbar_left, navbar_width. simpl.
  rewrite !lookup_insert_eq, lookup_insert_ne by done.
  rewrite lookup_insert_eq. by destruct (isMobile s).
Qed.

(** X6: in a reachable state the mousedown and the mouseup events leave
    the three inline styles as they are, each alone and one after the
    other: released away from the handle, a press changes no style and a
    dragged width stays.  The click that follows a press and release on
    the handle itself is a further event, which runs [resetWidth] (line
    168): after it the layout is the expanded default, whatever it was. *)
Theorem X6_mouse_buttons_keep_layout_click_resets (s : state) (e : MouseEvent) :
  reachable s →
  layout (step MouseDown s) = layout s
  ∧ layout (step (MouseUp e) s) = layout s
  ∧ layout (run [MouseDown; MouseUp e] s) = layout s
  ∧ layout (run [MouseDown; MouseUp e; ClickResetWidth] s)
    = (if isMobile s
       then (Some "100%", Some "100%", Some "0")
       else (Some "240px", Some "240px", Some "calc(100% - 240px)")).
Proof.
  intros Hs.
  assert (Hup : ∀ s1, reachable s1 → layout (step (MouseUp e) s1) = layout s1).
  { intros s1 Hs1. destruct (reachable_drag_inv s1 Hs1) as [[Hown _] _].
    destruct (dispatch_mouseup_refs_fold e (listeners s1) s1 Hown) as [H1 H2].
    unfold layout, sidebar_width, navbar_left, navbar_width. simpl.
    unfold dispatch. by rewrite H1, H2. }
  assert (Hdown : layout (step MouseDown s) = layout s).
  { destruct (handleMouseDown_refs s) as (H1 & H2 & _).
    unfold layout, sidebar_width, navbar_left, navbar_width. simpl.
    by rewrite H1, H2. }
  pose proof (reach_step MouseDown s Hs) as Hs1.
  pose proof (reach_step (MouseUp e) _ Hs1) as Hs2.
  split; [done|]. split; [by apply Hup|]. split.
  - change (run [MouseDown; MouseUp e] s)
      with (step (MouseUp e) (step MouseDown s)).
    by rewrite (Hup _ Hs1).
  - change (run [MouseDown; MouseUp e; ClickResetWidth] s)
      with (resetWidth (step (MouseUp e) (step MouseDown s))).
    destruct (reachable_width_inv _ Hs2) as [Hbp _].
    rewrite (resetWidth_layout _ Hbp). simpl.
    rewrite dispatch_isMobile.
    by destruct (handleMouseDown_refs s) as (_ & _ & _ & ->).
Qed.

Lemma X6_witness :
  reachable (run [MouseDown; MouseMove {| clientX := 410 |}] desktop)
  ∧ layout (step (MouseUp {| clientX := 410 |})
              (run [MouseDown; MouseMove {| clientX := 410 |}] desktop))
    = (Some "410px", Some "410px", Some "calc(100% - 410px)")
  ∧ layout (run [MouseDown; MouseUp {| clientX := 410 |}; ClickResetWidth]
              (run [MouseDown; MouseMove {| clientX := 410 |}] desktop))
    = (Some "240px", Some "240px", Some "calc(100% - 240px)").
Proof.
  assert (Hr : reachable (run [MouseDown; MouseMove {| clientX := 410 |}] desktop))
    by apply reachable_run, reach_mount.
  split; [exact Hr|].
  destruct (X6_mouse_buttons_keep_layout_click_resets _ {| clientX := 410 |} Hr)
    as (_ & H & _ & Hclick).
  split; [rewrite H; vm_compute; reflexivity|].
  rewrite Hclick. vm_compute. reflexivity.
Defined.

(** X7: during a drag with both elements present the sidebar's pixel
    width grows with the pointer: a move further right never leaves a
    narrower sidebar, and the width stays between 240 and 480.  Handling a
    move to the width just reached changes nothing further. *)
Theorem X7_width_follows_pointer
    (s : state) (sb nb : element) (x y : Z) :
  isResizingRef s = true →
  sidebarRef s = Some sb →
  navbarRef s = Some nb →
  x ≤ y →
  ∃ a b,
    sidebar_width (handleMouseMove {| clientX := x |} s) ≫= Css.pixels = Some a
    ∧ sidebar_width (handleMouseMove {| clientX := y |} s) ≫= Css.pixels = Some b
    ∧ 240 ≤ a ∧ a ≤ b ∧ b ≤ 480
    ∧ handleMouseMove {| clientX := a |} s = handleMouseMove {| clientX := x |} s.
Proof.
  intros Hr Hsb Hnb Hxy. exists (clamp x), (clamp y).
  assert (Hw : ∀ z, sidebar_width (handleMouseMove {| clientX := z |} s)
                      ≫= Css.pixels = Some (clamp z)).
  { intros z. rewrite (handleMouseMove_dragging s sb nb Hsb Hnb _ Hr).
    unfold sidebar_width. simpl. rewrite lookup_insert_eq. simpl.
    apply pixels_px. }
  split; [apply Hw|]. split; [apply Hw|].
  pose proof (clamp_range x). pose proof (clamp_range y).
  split; [lia|]. split; [rewrite !clamp_max_min; lia|]. split; [lia|].
  rewrite !(handleMouseMove_dragging s sb nb Hsb Hnb _ Hr). simpl.
  by rewrite (clamp_inside (clamp x)).
Qed.

Lemma X7_witness :
  isResizingRef dragging = true
  ∧ is_Some (sidebarRef dragging)
  ∧ is_Some (navbarRef dragging)
  ∧ 100 ≤ 300
  ∧ ∃ a b,
      sidebar_width (handleMouseMove {| clientX := 100 |} dragging) ≫= Css.pixels
      = Some a
      ∧ sidebar_width (handleMouseMove {| clientX := 300 |} dragging) ≫= Css.pixels
        = Some b
      ∧ 240 ≤ a ∧ a ≤ b ∧ b ≤ 480
      ∧ handleMouseMove {| clientX := a |} dragging
        = handleMouseMove {| clientX := 100 |} dragging.
Proof.
  split; [reflexivity|]. split; [vm_compute; eauto|]. split; [vm_compute; eauto|].
  split; [lia|].
  eapply (X7_width_follows_pointer dragging); [reflexivity.. | lia].
Defined.

(** ** Pending timeouts *)

Section Timers.

Lemma timers_inv_frame (s s' : state) :
  timers s' = timers s → now s' = now s → isResetting s' = isResetting s →
  timers_inv s → timers_inv s'.
Proof. unfold timers_inv, pending_ok. by intros -> -> ->. Qed.

Lemma collapse_schedules (s : state) :
  both_present s = true →
  timers (collapse s)
  = (timers s ++ [((now s + 300)%nat, SetIsResetting false)])%list
  ∧ now (collapse s) = now s
  ∧ isResetting (collapse s) = true.
Proof.
  intros Hbp. destruct (both_present_inv s Hbp) as (sb & nb & Hsb & Hnb).
  by rewrite (collapse_present s sb nb Hsb Hnb).
Qed.

Lemma resetWidth_schedules (s : state) :
  both_present s = true →
  timers (resetWidth s)
  = (timers s ++ [((now s + 300)%nat, SetIsResetting false)])%list
  ∧ now (resetWidth s) = now s
  ∧ isResetting (resetWidth s) = true.
Proof.
  intros Hbp. destruct (both_present_inv s Hbp) as (sb & nb & Hsb & Hnb).
  by rewrite (resetWidth_present s sb nb Hsb Hnb).
Qed.

(** A state that has just scheduled its 300 ms timeout and set the flag. *)
Lemma scheduled_timers_inv (s s' : state) :
  timers s' = (timers s ++ [((now s + 300)%nat, SetIsResetting false)])%list →
  now s' = now s →
  timers_inv s → timers_inv s'.
Proof.
  intros Ht Hn [Hall _]. unfold timers_inv. rewrite Ht. split.
  - apply Forall_app. split.
    + eapply Forall_impl; [exact Hall|]. unfold pending_ok. intros x.
      by rewrite Hn.
    + apply Forall_singleton. unfold pending_ok. rewrite Hn. simpl. split; [done|lia].
  - intros _ Hnil. by apply app_eq_nil in Hnil as [_ ?].
Qed.

Lemma collapse_timers_inv (s : state) : timers_inv s → timers_inv (collapse s).
Proof.
  intros Hinv. destruct (both_present s) eqn:Hbp.
  - destruct (collapse_schedules s Hbp) as (Ht & Hn & _).
    by apply (scheduled_timers_inv s).
  - unfold collapse. by rewrite Hbp.
Qed.

Lemma resetWidth_timers_inv (s : state) : timers_inv s → timers_inv (resetWidth s).
Proof.
  intros Hinv. destruct (both_present s) eqn:Hbp.
  - destruct (resetWidth_schedules s Hbp) as (Ht & Hn & _).
    by apply (scheduled_timers_inv s).
  - unfold resetWidth. by rewrite Hbp.
Qed.

Lemma handleMouseMove_now (e : MouseEvent) (s : state) :
  now (handleMouseMove e s) = now s.
Proof. unfold handleMouseMove. by destruct (isResizingRef s), (both_present s). Qed.

Lemma handleMouseDown_now (s : state) : now (handleMouseDown s) = now s.
Proof.
  unfold handleMouseDown, andThen, addEventListener, andThen.
  by repeat case_decide.
Qed.

Lemma invoke_timers_inv (h : handler) (e : MouseEvent) (s : state) :
  timers_inv s → timers_inv (invoke h e s).
Proof.
  destruct h as [r|r]; simpl.
  - destruct (handleMouseMove_transition e s) as (H1 & H2 & _).
    apply timers_inv_frame; [done | apply handleMouseMove_now | done].
  - by apply timers_inv_frame.
Qed.

(** The callbacks that are due all clear the flag: after running at least
    one of them the flag is false. *)
Lemma run_callbacks_false (due : list (nat * callback)) (s : state) :
  Forall (λ x, x.2 = SetIsResetting false) due →
  due ≠ [] →
  isResetting (foldl (λ acc x, run_callback x.2 acc) s due) = false.
Proof.
  intros Hdue. revert s.
  induction Hdue as [|[d cb] due Hx Hdue IH]; intros s Hne; [done|].
  simpl in *. subst cb. destruct due as [|y due]; [done|]. by apply IH.
Qed.

Lemma tick_timers_inv (dt : nat) (s : state) :
  timers_inv s → timers_inv (tick dt s).
Proof.
  intros [Hall Hflag]. destruct (tick_timers dt s) as [Ht Hn].
  unfold timers_inv. rewrite Ht. split.
  - apply Forall_forall. intros x Hx.
    apply list_elem_of_filter in Hx as [Hlate Hx].
    destruct (proj1 (Forall_forall _ _) Hall x Hx) as [Hcb Hdue].
    unfold pending_ok. rewrite Hn. split; [done|lia].
  - intros Hset Hnil. unfold tick in Hset.
    destruct (filter (λ x, (x.1 ≤ now s + dt)%nat) (timers s))
      as [|y due] eqn:Edue.
    + simpl in Hset. destruct (timers s) as [|x ts] eqn:Ets; [by apply Hflag|].
      assert (Hx : x ∈ filter (λ x, ¬ (x.1 ≤ now s + dt)%nat) (x :: ts)).
      { apply list_elem_of_filter. split; [|apply list_elem_of_here].
        intros Hle.
        assert (Hin : x ∈ filter (λ x, (x.1 ≤ now s + dt)%nat) (x :: ts))
          by (apply list_elem_of_filter; split; [done | apply list_elem_of_here]).
        rewrite Edue in Hin. by apply not_elem_of_nil in Hin. }
      rewrite Hnil in Hx. by apply not_elem_of_nil in Hx.
    + rewrite run_callbacks_false in Hset; [done | | done].
      rewrite <- Edue. apply Forall_forall. intros x Hx.
      apply list_elem_of_filter in Hx as [_ Hx].
      by destruct (proj1 (Forall_forall _ _) Hall x Hx).
Qed.

Lemma rerender_timers_inv (m : bool) (p : string) (s : state) :
  timers_inv s → timers_inv (rerender m p s).
Proof.
  intros Hinv.
  assert (Hr : timers_inv (rendered m p s)) by by apply (timers_inv_frame s).
  unfold rerender, andThen. fold (rendered m p s).
  set (first := (if negb (bool_decide (m = isMobile s))
                 then effect_isMobile else skip) (rendered m p s)).
  assert (Hfirst : timers_inv first).
  { unfold first, effect_isMobile, skip.
    destruct (negb (bool_decide (m = isMobile s))); [|done].
    destruct (isMobile (rendered m p s));
      [by apply collapse_timers_inv | by apply resetWidth_timers_inv]. }
  destruct (negb (bool_decide (p = pathname s))
            || negb (bool_decide (m = isMobile s))); [|done].
  unfold effect_pathname. destruct (isMobile first); [|done].
  by apply collapse_timers_inv.
Qed.

Lemma mount_timers_inv (m : bool) (p : string) : timers_inv (mount m p).
Proof.
  assert (H0 : timers_inv (set_navbarRef (Some (Element ∅))
                 (set_sidebarRef (Some (Element ∅)) (initial m p)))).
  { split; [by apply Forall_nil | done]. }
  destruct m.
  - rewrite mount_mobile. by do 2 apply collapse_timers_inv.
  - rewrite mount_desktop. by apply resetWidth_timers_inv.
Qed.

Lemma step_timers_inv (ev : event) (s : state) :
  timers_inv s → timers_inv (step ev s).
Proof.
  intros Hinv. destruct ev as [|e|e| | |m p|dt]; simpl.
  - destruct (handleMouseDown_transition s) as (H1 & H2 & _).
    apply (timers_inv_frame s); [done | apply handleMouseDown_now | done | done].
  - apply (dispatch_preserves timers_inv); [|done].
    intros h s'. apply invoke_timers_inv.
  - apply (dispatch_preserves timers_inv); [|done].
    intros h s'. apply invoke_timers_inv.
  - by apply collapse_timers_inv.
  - by apply resetWidth_timers_inv.
  - by apply rerender_timers_inv.
  - by apply tick_timers_inv.
Qed.

Lemma reachable_timers_inv (s : state) : reachable s → timers_inv s.
Proof.
  induction 1 as [m p | ev s _ IH];
    [apply mount_timers_inv | by apply step_timers_inv].
Qed.

End Timers.

(** X8: the transition flag cannot stay set for good.  In every reachable
    state each pending timeout clears the flag and falls due within the
    next 300 ms, one is pending whenever the flag is set, and once 300 ms
    pass without another event the flag is false and no timeout is left. *)
Theorem X8_transition_flag_settles (s : state) :
  reachable s →
  Forall (pending_ok s) (timers s)
  ∧ (isResetting s = true → timers s ≠ [])
  ∧ (∀ dt, (300 ≤ dt)%nat →
       isResetting (tick dt s) = false ∧ timers (tick dt s) = []).
Proof.
  intros Hs. destruct (reachable_timers_inv s Hs) as [Hall Hflag].
  split; [done|]. split; [done|]. intros dt Hdt.
  assert (Hnil : timers (tick dt s) = []).
  { destruct (tick_timers dt s) as [-> _].
    destruct (filter _ (timers s)) as [|x rest] eqn:E; [done|]. exfalso.
    assert (Hx : x ∈ filter (λ x, ¬ (x.1 ≤ now s + dt)%nat) (timers s))
      by (rewrite E; apply list_elem_of_here).
    apply list_elem_of_filter in Hx as [Hlate Hx].
    destruct (proj1 (Forall_forall _ _) Hall x Hx) as [_ Hdue]. lia. }
  split; [|done].
  destruct (tick_timers_inv dt s (conj Hall Hflag)) as [_ Hflag'].
  destruct (isResetting (tick dt s)); [|done]. exfalso. by apply Hflag'.
Qed.

Lemma X8_witness :
  reachable (run [ClickCollapse; Tick 100; ClickResetWidth] desktop)
  ∧ isResetting (run [ClickCollapse; Tick 100; ClickResetWidth] desktop) = true
  ∧ isResetting
      (tick 300 (run [ClickCollapse; Tick 100; ClickResetWidth] desktop))
    = false
  ∧ timers (tick 300 (run [ClickCollapse; Tick 100; ClickResetWidth] desktop))
    = [].
Proof.
  assert (Hr : reachable (run [ClickCollapse; Tick 100; ClickResetWidth] desktop))
    by apply reachable_run, reach_mount.
  destruct (X8_transition_flag_settles _ Hr) as (_ & _ & H).
  destruct (H 300%nat (le_n _)) as [H1 H2].
  split; [exact Hr|]. split; [vm_compute; reflexivity|].
  split; [exact H1 | exact H2].
Defined.

(** X9: a timeout is never cancelled.  When [collapse] or [resetWidth]
    runs in a reachable state while an earlier timeout is pending, that
    earlier timeout clears the transition flag as soon as it falls due,
    less than 300 ms into the new transition, whose own timeout is then
    still pending. *)
Theorem X9_earlier_timeout_clears_flag_early
    (s : state) (op : state → state) (x : nat * callback) (dt : nat) :
  reachable s →
  op = collapse ∨ op = resetWidth →
  x ∈ timers s →
  (x.1 ≤ now s + dt)%nat →
  (dt < 300)%nat →
  isResetting (op s) = true
  ∧ isResetting (tick dt (op s)) = false
  ∧ ((now s + 300)%nat, SetIsResetting false) ∈ timers (tick dt (op s)).
Proof.
  intros Hs Hop Hx Hdue Hdt.
  destruct (reachable_width_inv s Hs) as [Hbp _].
  pose proof (reachable_timers_inv s Hs) as Hinv.
  assert (Hsched : timers (op s)
                   = (timers s ++ [((now s + 300)%nat, SetIsResetting false)])%list
                   ∧ now (op s) = now s ∧ isResetting (op s) = true).
  { destruct Hop as [-> | ->];
      [by apply collapse_schedules | by apply resetWidth_schedules]. }
  destruct Hsched as (Ht & Hn & Hf).
  assert (Hinv' : timers_inv (op s)) by by apply (scheduled_timers_inv s).
  split; [done|]. split.
  - unfold tick. apply run_callbacks_false.
    + apply Forall_forall. intros y Hy.
      apply list_elem_of_filter in Hy as [_ Hy].
      by destruct (proj1 (Forall_forall _ _) (proj1 Hinv') y Hy).
    + intros Hnil.
      assert (Hin : x ∈ filter (λ x, (x.1 ≤ now (op s) + dt)%nat) (timers (op s))).
      { apply list_elem_of_filter. rewrite Hn, Ht. split; [done|].
        apply elem_of_app. by left. }
      rewrite Hnil in Hin. by apply not_elem_of_nil in Hin.
  - destruct (tick_timers dt (op s)) as [-> _]. rewrite Hn, Ht.
    apply list_elem_of_filter. split; [simpl; lia|].
    apply elem_of_app. right. by apply list_elem_of_singleton.
Qed.

Lemma X9_witness :
  reachable (step (Tick 200) desktop)
  ∧ (300%nat, SetIsResetting false) ∈ timers (step (Tick 200) desktop)
  ∧ isResetting (collapse (step (Tick 200) desktop)) = true
  ∧ isResetting (tick 100 (collapse (step (Tick 200) desktop))) = false
  ∧ (500%nat, SetIsResetting false)
    ∈ timers (tick 100 (collapse (step (Tick 200) desktop))).
Proof.
  assert (Hr : reachable (step (Tick 200) desktop))
    by exact (reach_step (Tick 200) desktop (reach_mount false "/documents")).
  assert (Hx : (300%nat, SetIsResetting false) ∈ timers (step (Tick 200) desktop))
    by (vm_compute; apply list_elem_of_here).
  assert (Hdue : ((300%nat, SetIsResetting false).1
                  ≤ now (step (Tick 200) desktop) + 100)%nat)
    by (vm_compute; lia).
  assert (Hdt : (100 < 300)%nat) by lia.
  destruct (X9_earlier_timeout_clears_flag_early
              (step (Tick 200) desktop) collapse (300%nat, SetIsResetting false)
              100%nat Hr (or_introl eq_refl) Hx Hdue Hdt)
    as (H1 & H2 & H3).
  split; [exact Hr|]. split; [exact Hx|]. split; [exact H1|].
  split; [exact H2 | exact H3].
Defined.

(** ** Renders *)

Lemma rerender_on_desktop (p : string) (s : state) :
  isMobile s = false → rerender false p s = rendered false p s.
Proof.
  intros Hm. unfold rerender, andThen, effect_pathname, skip. rewrite Hm. simpl.
  by destruct (negb (bool_decide (p = pathname s))).
Qed.

(** X10: with both elements present, a render in which the breakpoint
    query turns to mobile runs [collapse] once for each of the two effects
    and so schedules two timeouts; one in which it turns to desktop
    schedules one, as does a change of path while mobile.  All fall due
    300 ms after the render. *)
Theorem X10_timeouts_per_render (s : state) (p : string) :
  both_present s = true →
  (isMobile s = false →
     timers (rerender true p s)
     = (timers s ++ [((now s + 300)%nat, SetIsResetting false);
                     ((now s + 300)%nat, SetIsResetting false)])%list)
  ∧ (isMobile s = true →
     timers (rerender false p s)
     = (timers s ++ [((now s + 300)%nat, SetIsResetting false)])%list)
  ∧ (isMobile s = true → p ≠ pathname s →
     timers (rerender true p s)
     = (timers s ++ [((now s + 300)%nat, SetIsResetting false)])%list).
Proof.
  intros Hbp.
  assert (Hr : ∀ m, both_present (rendered m p s) = true) by done.
  split; [|split].
  - intros Hm. rewrite (rerender_to_mobile p s Hm).
    destruct (collapse_schedules (rendered true p s) (Hr true)) as (Ht & Hn & _).
    destruct (collapse_schedules (collapse (rendered true p s))) as (Ht' & _).
    { by rewrite collapse_both_present. }
    rewrite Ht', Ht, Hn. simpl. by rewrite <- app_assoc.
  - intros Hm. rewrite (rerender_to_desktop p s Hm).
    by destruct (resetWidth_schedules (rendered false p s) (Hr false)) as (-> & _).
  - intros Hm Hp. rewrite (rerender_path_on_mobile p s Hm Hp).
    by destruct (collapse_schedules (rendered true p s) (Hr true)) as (-> & _).
Qed.

Lemma X10_witness :
  both_present desktop = true
  ∧ isMobile desktop = false
  ∧ timers (rerender true "/documents" desktop)
    = [(300%nat, SetIsResetting false); (300%nat, SetIsResetting false);
       (300%nat, SetIsResetting false)].
Proof.
  assert (Hbp : both_present desktop = true) by (vm_compute; reflexivity).
  destruct (X10_timeouts_per_render desktop "/documents" Hbp) as (H & _).
  split; [exact Hbp|]. split; [reflexivity|].
  rewrite (H eq_refl). vm_compute. reflexivity.
Defined.

(** X11: on a desktop layout a change of path changes no style, flag,
    timeout or listener, however many paths are visited: a width reached
    by dragging survives navigation. *)
Theorem X11_desktop_navigation_keeps_layout (paths : list string) (s : state) :
  isMobile s = false →
  let s' := run (map (Render false) paths) s in
  layout s' = layout s
  ∧ isCollapsed s' = isCollapsed s
  ∧ isResetting s' = isResetting s
  ∧ timers s' = timers s
  ∧ listeners s' = listeners s
  ∧ isMobile s' = false.
Proof.
  revert s. induction paths as [|p paths IH]; intros s Hm; [done|].
  simpl. rewrite (rerender_on_desktop p s Hm).
  destruct (IH (rendered false p s) eq_refl) as (H1 & H2 & H3 & H4 & H5 & H6).
  fold (run (map (Render false) paths) (rendered false p s)).
  by rewrite H1, H2, H3, H4, H5, H6.
Qed.

Lemma X11_witness :
  isMobile (run [MouseDown; MouseMove {| clientX := 400 |}] desktop) = false
  ∧ layout (run (map (Render false) ["/a"; "/b"])
              (run [MouseDown; MouseMove {| clientX := 400 |}] desktop))
    = (Some "400px", Some "400px", Some "calc(100% - 400px)").
Proof.
  assert (Hm : isMobile (run [MouseDown; MouseMove {| clientX := 400 |}] desktop)
               = false) by (vm_compute; reflexivity).
  destruct (X11_desktop_navigation_keeps_layout ["/a"; "/b"] _ Hm) as (H & _).
  split; [exact Hm|]. rewrite H. vm_compute. reflexivity.
Defined.

(** ** The menu icon *)

(** X12: in every reachable state in which the sidebar's inline width is
    0 the menu icon, whose click expands the sidebar, is rendered; and
    when it is not rendered the sidebar is 100% wide on a mobile layout or
    between 240 and 480 pixels wide. *)
Theorem X12_collapsed_sidebar_shows_menu_icon (s : state) :
  reachable s →
  (sidebar_width s = Some "0" → menuIcon_rendered s = true)
  ∧ (menuIcon_rendered s = false →
     (sidebar_width s = Some "100%" ∧ isMobile s = true)
     ∨ (∃ v n, sidebar_width s = Some v
               ∧ Css.pixels v = Some n ∧ 240 ≤ n ≤ 480)).
Proof.
  intros Hs. destruct (reachable_width_inv s Hs) as (_ & v & Hv & Hshape).
  unfold menuIcon_rendered. rewrite Hv. split.
  - intros [= ->]. destruct Hshape as [[_ H] | [[H _] | H]]; [done | done |].
    vm_compute in H. discriminate.
  - intros Hc. destruct Hshape as [[_ H] | [[-> H] | H]]; [congruence | by left |].
    right. unfold Css.within in H.
    destruct (Css.pixels v) as [n|] eqn:E; [|done].
    exists v, n. split; [done|]. split; [done|lia].
Qed.

Lemma X12_witness :
  reachable (run [ClickCollapse; Tick 300] desktop)
  ∧ sidebar_width (run [ClickCollapse; Tick 300] desktop) = Some "0"
  ∧ menuIcon_rendered (run [ClickCollapse; Tick 300] desktop) = true.
Proof.
  assert (Hr : reachable (run [ClickCollapse; Tick 300] desktop))
    by apply reachable_run, reach_mount.
  assert (Hw : sidebar_width (run [ClickCollapse; Tick 300] desktop) = Some "0")
    by (vm_compute; reflexivity).
  destruct (X12_collapsed_sidebar_shows_menu_icon _ Hr) as [H _].
  split; [exact Hr|]. split; [exact Hw | exact (H Hw)].
Defined.

(** ** Collapse and expand forget the dragged width *)

(** X13: in a reachable state a click on the chevron leaves the layout
    (0, 0, 100%), and a click that expands leaves (240px, 240px,
    calc(100% - 240px)) on a desktop layout and (100%, 100%, 0) on a mobile
    one, whatever the layout was before: a width reached by dragging is not
    restored after a collapse. *)
Theorem X13_collapse_and_expand_forget_width (s : state) :
  reachable s →
  layout (step ClickCollapse s) = (Some "0", Some "0", Some "100%")
  ∧ layout (step ClickResetWidth s)
    = (if isMobile s
       then (Some "100%", Some "100%", Some "0")
       else (Some "240px", Some "240px", Some "calc(100% - 240px)"))
  ∧ layout (step ClickResetWidth (step ClickCollapse s))
    = layout (step ClickResetWidth s).
Proof.
  intros Hs. destruct (reachable_width_inv s Hs) as [Hbp _].
  destruct (both_present_inv s Hbp) as (sb & nb & Hsb & Hnb).
  assert (Hc : layout (collapse s) = (Some "0", Some "0", Some "100%")).
  { rewrite (collapse_present s sb nb Hsb Hnb).
    unfold layout, sidebar_width, navbar_left, navbar_width. simpl.
    rewrite !lookup_insert_eq, lookup_insert_ne by done.
    by rewrite lookup_insert_eq. }
  assert (Hr : ∀ s1 sb1 nb1,
             sidebarRef s1 = Some sb1 → navbarRef s1 = Some nb1 →
             layout (resetWidth s1)
             = (if isMobile s1
                then (Some "100%", Some "100%", Some "0")
                else (Some "240px", Some "240px", Some "calc(100% - 240px)"))).
  { intros s1 sb1 nb1 H1 H2. rewrite (resetWidth_present s1 sb1 nb1 H1 H2).
    unfold layout, sidebar_width, navbar_left, navbar_width. simpl.
    rewrite !lookup_insert_eq, lookup_insert_ne by done.
    rewrite lookup_insert_eq. by destruct (isMobile s1). }
  simpl. split; [done|]. split; [by apply (Hr s sb nb)|].
  destruct (collapse_refs s sb nb Hsb Hnb) as (sb' & nb' & Hsb' & Hnb').
  rewrite (Hr _ sb' nb' Hsb' Hnb'), (Hr s sb nb Hsb Hnb).
  by rewrite collapse_isMobile.
Qed.

Lemma X13_witness :
  reachable (run [MouseDown; MouseMove {| clientX := 400 |};
                  MouseUp {| clientX := 400 |}] desktop)
  ∧ layout (step ClickResetWidth
              (step ClickCollapse
                 (run [MouseDown; MouseMove {| clientX := 400 |};
                       MouseUp {| clientX := 400 |}] desktop)))
    = (Some "240px", Some "240px", Some "calc(100% - 240px)").
Proof.
  assert (Hr : reachable (run [MouseDown; MouseMove {| clientX := 400 |};
                               MouseUp {| clientX := 400 |}] desktop))
    by apply reachable_run, reach_mount.
  destruct (X13_collapse_and_expand_forget_width _ Hr) as (_ & H2 & H3).
  split; [exact Hr|]. rewrite H3, H2. vm_compute. reflexivity.
Defined.
